(** * atc/db/base_resource_type.go

    A shallow embedding of the base resource type catalog of the ATC
    database layer: the [base_resource_types] table, the two SQL
    statements the package issues against it, and the three Go functions
    [Find], [create] and [FindOrCreate].

    The Go functions are embedded as programs over the statements they
    send to the runner ([prog]).  The storage behind the runner interprets
    one statement at a time ([exec_select], [exec_upsert]); running a
    program to completion ([run]) gives the behaviour of one caller, and
    scheduling the statements of several programs against one store
    ([run_sched]) gives the behaviour of several callers. *)

From Stdlib Require Import ZArith List String Bool Lia.
Import ListNotations.

Local Open Scope string_scope.
Local Open Scope list_scope.
Local Open Scope Z_scope.

(** ** Values *)

(** The outcome of a fallible library call: the value or the error. *)
Inductive result (E A : Type) : Type :=
| Ok (a : A)
| Err (e : E).
Arguments Ok {E A} a.
Arguments Err {E A} e.

(** Go [error] values that can reach this package, by origin. *)
Inductive error : Type :=
| ErrNoRows                       (* the sentinel sql.ErrNoRows *)
| ErrDriver (msg : string)        (* any other error of the runner *)
| ErrUnmarshal (msg : string).    (* an error of json.Unmarshal *)

(** [sql.NullString]. *)
Record NullString : Type := mkNullString {
  NString : string;
  Valid : bool
}.

(** The column value of a nullable text column, as [Scan] stores it. *)
Definition scan_null (c : option string) : NullString :=
  match c with
  | Some s => mkNullString s true
  | None => mkNullString "" false
  end.

(** [atc.Source] and its JSON decoder are outside this package. *)
Class SourceCodec : Type := {
  Source : Type;
  (** the zero value of [atc.Source], a nil map *)
  nilSource : Source;
  (** [json.Unmarshal] into a nil [atc.Source] *)
  json_unmarshal : string -> result string Source
}.

(** [BaseResourceType]. *)
Record BaseResourceType : Type := mkBaseResourceType {
  Id : Z;
  Name : string
}.

(** A call that selects by name leaves [Id] at its zero value. *)
Definition named (name : string) : BaseResourceType :=
  {| Id := 0; Name := name |}.

(** ** The table *)

(** A row of [base_resource_types]. *)
Record Row : Type := mkRow {
  row_id : Z;
  row_name : string;
  row_unique : bool;                 (* unique_version_history *)
  row_defaults : option string       (* defaults, nullable *)
}.

Inductive where_clause : Type :=
| EqId (id : Z)                      (* sq.Eq{"id": id} *)
| EqName (name : string).            (* sq.Eq{"name": name} *)

Definition matches (w : where_clause) (r : Row) : bool :=
  match w with
  | EqId id => Z.eqb (row_id r) id
  | EqName name => String.eqb (row_name r) name
  end.

(** The statements of the package, for the statement log. *)
Inductive statement : Type :=
| SelectForShare (w : where_clause)
| InsertOnConflict (name : string) (unique : bool).

Definition is_write (s : statement) : bool :=
  match s with
  | SelectForShare _ => false
  | InsertOnConflict _ _ => true
  end.

(** The storage behind a runner: the rows, the id sequence, the failures
    the next statements will meet ([None]: the statement goes through,
    [Some msg]: the runner reports [msg]; an exhausted script means no
    failure), and the statements received so far. *)
Record Store : Type := mkStore {
  rows : list Row;
  next_id : Z;
  faults : list (option string);
  log : list statement
}.

(** The columns [Find] scans. *)
Definition selected : Type := (Z * string * bool * NullString)%type.

(** The columns of [RETURNING id, unique_version_history]. *)
Definition returned : Type := (Z * bool)%type.

Definition lookup (w : where_clause) (rs : list Row) : option Row :=
  find (matches w) rs.

(** The flag stored for a name, if the name has a row. *)
Definition stored_flag (name : string) (st : Store) : option bool :=
  option_map row_unique (lookup (EqName name) (rows st)).

(** The id stored for a name, if the name has a row. *)
Definition stored_id (name : string) (st : Store) : option Z :=
  option_map row_id (lookup (EqName name) (rows st)).

(** The number of rows carrying a name. *)
Definition count_name (name : string) (rs : list Row) : nat :=
  List.length (filter (matches (EqName name)) rs).

(** The failure the next statement meets, if any. *)
Definition next_fault (st : Store) : option string :=
  match faults st with
  | Some msg :: _ => Some msg
  | _ => None
  end.

(** [SELECT id, name, unique_version_history, defaults
     FROM base_resource_types WHERE w FOR SHARE], scanned as one row. *)
Definition exec_select (w : where_clause) (st : Store)
  : result error selected * Store :=
  let st' := {| rows := rows st; next_id := next_id st;
                faults := tl (faults st);
                log := log st ++ [SelectForShare w] |} in
  match next_fault st with
  | Some msg => (Err (ErrDriver msg), st')
  | None =>
      match lookup w (rows st) with
      | None => (Err ErrNoRows, st')
      | Some r =>
          (Ok (row_id r, row_name r, row_unique r,
               scan_null (row_defaults r)), st')
      end
  end.

(** The row write of
    [INSERT INTO base_resource_types (name, unique_version_history)
     VALUES (name, unique)
     ON CONFLICT (name) DO UPDATE SET name = EXCLUDED.name,
       unique_version_history = EXCLUDED.unique_version_history
                                OR base_resource_types.unique_version_history]:
    the rows after the statement and the row it inserted or updated. *)
Fixpoint upsert_rows (name : string) (unique : bool) (fresh : Z)
    (rs : list Row) : list Row * Row :=
  match rs with
  | [] =>
      let r := {| row_id := fresh; row_name := name;
                  row_unique := unique; row_defaults := None |} in
      ([r], r)
  | r :: rs' =>
      if String.eqb (row_name r) name then
        let r' := {| row_id := row_id r; row_name := name;
                     row_unique := unique || row_unique r;
                     row_defaults := row_defaults r |} in
        (r' :: rs', r')
      else
        let (rs'', r') := upsert_rows name unique fresh rs' in
        (r :: rs'', r')
  end.

(** The statement above with [RETURNING id, unique_version_history],
    scanned as one row.  The id of a new row is drawn from the sequence;
    the sequence advances on every attempt, as a serial column does. *)
Definition exec_upsert (name : string) (unique : bool) (st : Store)
  : result error returned * Store :=
  let lg := log st ++ [InsertOnConflict name unique] in
  match next_fault st with
  | Some msg =>
      (Err (ErrDriver msg),
       {| rows := rows st; next_id := next_id st;
          faults := tl (faults st); log := lg |})
  | None =>
      let (rs', r) := upsert_rows name unique (next_id st) (rows st) in
      (Ok (row_id r, row_unique r),
       {| rows := rs'; next_id := next_id st + 1;
          faults := tl (faults st); log := lg |})
  end.

(** ** Programs over the runner *)

(** A Go function of the package, as the statements it sends and what it
    does with each scan; [Panic] is a run-time panic. *)
Inductive prog (A : Type) : Type :=
| Ret (a : A)
| Panic (msg : string)
| Select (w : where_clause) (k : result error selected -> prog A)
| Upsert (name : string) (unique : bool) (k : result error returned -> prog A).
Arguments Ret {A} a.
Arguments Panic {A} msg.
Arguments Select {A} w k.
Arguments Upsert {A} name unique k.

Fixpoint bind {A B : Type} (p : prog A) (f : A -> prog B) : prog B :=
  match p with
  | Ret a => f a
  | Panic msg => Panic msg
  | Select w k => Select w (fun r => bind (k r) f)
  | Upsert n u k => Upsert n u (fun r => bind (k r) f)
  end.

Notation "x <- p ;; q" := (bind p (fun x => q))
  (at level 61, p at next level, right associativity).

(** How a call ends. *)
Inductive outcome (A : Type) : Type :=
| Returned (a : A)
| Panicked (msg : string).
Arguments Returned {A} a.
Arguments Panicked {A} msg.

(** One caller, run to completion against the store. *)
Fixpoint run {A : Type} (p : prog A) (st : Store) : outcome A * Store :=
  match p with
  | Ret a => (Returned a, st)
  | Panic msg => (Panicked msg, st)
  | Select w k => let (r, st') := exec_select w st in run (k r) st'
  | Upsert n u k => let (r, st') := exec_upsert n u st in run (k r) st'
  end.

(** One statement of a caller; a finished caller stays as it is. *)
Definition step {A : Type} (p : prog A) (st : Store) : prog A * Store :=
  match p with
  | Select w k => let (r, st') := exec_select w st in (k r, st')
  | Upsert n u k => let (r, st') := exec_upsert n u st in (k r, st')
  | _ => (p, st)
  end.

(** Several callers on one store: the schedule names, statement by
    statement, the caller whose next statement the storage executes. *)
Fixpoint step_nth {A : Type} (i : nat) (ps : list (prog A)) (st : Store)
  : list (prog A) * Store :=
  match ps, i with
  | [], _ => ([], st)
  | p :: ps', O => let (p', st') := step p st in (p' :: ps', st')
  | p :: ps', S j => let (ps'', st') := step_nth j ps' st in (p :: ps'', st')
  end.

Fixpoint run_sched {A : Type} (sched : list nat) (ps : list (prog A))
    (st : Store) : list (prog A) * Store :=
  match sched with
  | [] => (ps, st)
  | i :: sched' =>
      let (ps', st') := step_nth i ps st in run_sched sched' ps' st'
  end.

(** ** The package *)

Section Package.

Context {codec : SourceCodec}.

(** [UsedBaseResourceType]; its [Name] field is [UsedName] here. *)
Record UsedBaseResourceType : Type := mkUsedBaseResourceType {
  ID : Z;
  UsedName : string;
  UniqueVersionHistory : bool;
  Defaults : Source
}.

(** The three results of [Find]: the record or nil, found, the error
    or nil. *)
Definition find_result : Type :=
  (option UsedBaseResourceType * bool * option error)%type.

(** The two results of [create] and [FindOrCreate]: the record or nil,
    the error or nil. *)
Definition create_result : Type :=
  (option UsedBaseResourceType * option error)%type.

(** The [Where] of [Find]. *)
Definition selector (brt : BaseResourceType) : where_clause :=
  if 0 <? Id brt then EqId (Id brt) else EqName (Name brt).

(** What [Find] returns for a scan. *)
Definition Find_scan (res : result error selected) : find_result :=
  match res with
  | Err ErrNoRows => (None, false, None)
  | Err e => (None, false, Some e)
  | Ok (id, name, unique, defaultsString) =>
      if Valid defaultsString then
        match json_unmarshal (NString defaultsString) with
        | Err msg => (None, false, Some (ErrUnmarshal msg))
        | Ok defaults =>
            (Some {| ID := id; UsedName := name;
                     UniqueVersionHistory := unique;
                     Defaults := defaults |}, true, None)
        end
      else
        (Some {| ID := id; UsedName := name;
                 UniqueVersionHistory := unique;
                 Defaults := nilSource |}, true, None)
  end.

(** The three shapes of what [Find] returns. *)
Inductive Find_shape : result error selected -> find_result -> Prop :=
| Find_absent_shape :
    Find_shape (Err ErrNoRows) (None, false, None)
| Find_error_shape (res : result error selected) (e : error) :
    Find_shape res (None, false, Some e)
| Find_found_shape (id : Z) (name : string) (unique : bool)
    (ds : NullString) (d : Source) :
    Find_shape (Ok (id, name, unique, ds))
      (Some {| ID := id; UsedName := name; UniqueVersionHistory := unique;
               Defaults := d |}, true, None).

Definition Find (brt : BaseResourceType) : prog find_result :=
  Select (selector brt) (fun res => Ret (Find_scan res)).

(** What [create] returns for a scan. *)
Definition create_scan (brt : BaseResourceType)
    (res : result error returned) : create_result :=
  match res with
  | Err e => (None, Some e)
  | Ok (id, savedUnique) =>
      (Some {| ID := id; UsedName := Name brt;
               UniqueVersionHistory := savedUnique;
               Defaults := nilSource |}, None)
  end.

Definition create (brt : BaseResourceType) (unique : bool)
  : prog create_result :=
  Upsert (Name brt) unique (fun res => Ret (create_scan brt res)).

(** What [FindOrCreate] does after [Find]. *)
Definition FindOrCreate_found (brt : BaseResourceType) (unique : bool)
    (res : find_result) : prog create_result :=
  let '(ubrt, found, err) := res in
  match err with
  | Some e => Ret (None, Some e)
  | None =>
      if found then
        match ubrt with
        | None => Panic "nil pointer dereference"
        | Some u =>
            if Bool.eqb (UniqueVersionHistory u) unique
            then Ret (Some u, None)
            else create brt unique
        end
      else create brt unique
  end.

Definition FindOrCreate (brt : BaseResourceType) (unique : bool)
  : prog create_result :=
  res <- Find brt ;; FindOrCreate_found brt unique res.

(** *** Several callers of one name *)

(** The callers that register [name], one per requested flag. *)
Definition callers (name : string) (flags : list bool)
  : list (prog create_result) :=
  map (FindOrCreate (named name)) flags.

(** The callers that have all returned a record. *)
Definition resolved (us : list UsedBaseResourceType)
  : list (prog create_result) :=
  map (fun u => Ret (Some u, None)) us.

(** The logical or of the requested flags. *)
Definition any_flag (flags : list bool) : bool :=
  existsb (fun f => f) flags.

(** Where a caller that registers [name] with flag [f] can stand between
    two statements, and what the store holds for it once it has returned a
    record. *)
Inductive caller_at (name : string) (f : bool) (st : Store)
  : prog create_result -> Prop :=
| at_start :
    caller_at name f st (FindOrCreate (named name) f)
| at_write :
    caller_at name f st (create (named name) f)
| at_failed (e : error) :
    caller_at name f st (Ret (None, Some e))
| at_returned (u : UsedBaseResourceType) (r : Row) :
    lookup (EqName name) (rows st) = Some r ->
    ID u = row_id r ->
    (f = true -> row_unique r = true) ->
    caller_at name f st (Ret (Some u, None)).

(** What every statement of such a caller keeps of the row of [name]: the
    row stays, with its id, and a true flag stays true. *)
Definition evolves (name : string) (st st' : Store) : Prop :=
  forall r,
    lookup (EqName name) (rows st) = Some r ->
    exists r',
      lookup (EqName name) (rows st') = Some r'
      /\ row_id r' = row_id r
      /\ (row_unique r = true -> row_unique r' = true).

(** The invariant of the callers of [name] with the flags [flags]. *)
Definition registry_inv (name : string) (flags : list bool)
    (ps : list (prog create_result)) (st : Store) : Prop :=
  Forall2 (fun f p => caller_at name f st p) flags ps
  /\ (count_name name (rows st) <= 1)%nat
  /\ (stored_flag name st = Some true -> In true flags).

(** A caller that registers [name] and returns a record after at most
    [n] more statements, on a storage that does not fail. *)
Inductive caller_live (name : string) : nat -> prog create_result -> Prop :=
| live_start (f : bool) (n : nat) :
    (2 <= n)%nat -> caller_live name n (FindOrCreate (named name) f)
| live_write (f : bool) (n : nat) :
    (1 <= n)%nat -> caller_live name n (create (named name) f)
| live_returned (u : UsedBaseResourceType) (n : nat) :
    caller_live name n (Ret (Some u, None)).

(** A storage that does not fail, with no defaults on the row of [name]. *)
Definition clean (name : string) (st : Store) : Prop :=
  faults st = []
  /\ forall r, lookup (EqName name) (rows st) = Some r ->
               row_defaults r = None.

(** The turns a schedule gives to caller [i]. *)
Definition turns (sched : list nat) (i : nat) : nat :=
  count_occ Nat.eq_dec sched i.

(** What [Find] makes of a defaults column: the zero value for NULL, the
    decoded document for a text that decodes. *)
Definition decodes (c : option string) (d : Source) : Prop :=
  match c with
  | None => d = nilSource
  | Some s => json_unmarshal s = Ok d
  end.

End Package.

(** ** Sample data *)

(** A decoder for the examples: the empty object and [null] decode, any
    other text is refused. *)
Definition sample_codec : SourceCodec :=
  {| Source := list (string * string);
     nilSource := [];
     json_unmarshal := fun s =>
       if String.eqb s "{}" then Ok []
       else if String.eqb s "null" then Ok []
       else Err "invalid character" |}.

(** An empty catalog on a storage that does not fail. *)
Definition empty_store : Store :=
  {| rows := []; next_id := 1; faults := []; log := [] |}.

(** A catalog of two types, [git] not yet unique, [hg] with a defaults
    payload. *)
Definition sample_store : Store :=
  {| rows := [ {| row_id := 1; row_name := "git"; row_unique := false;
                  row_defaults := None |};
               {| row_id := 2; row_name := "hg"; row_unique := true;
                  row_defaults := Some "{}" |} ];
     next_id := 3; faults := []; log := [] |}.

(** The same catalog with a payload that is not JSON on [git]. *)
Definition broken_store : Store :=
  {| rows := [ {| row_id := 1; row_name := "git"; row_unique := false;
                  row_defaults := Some "{]" |};
               {| row_id := 2; row_name := "hg"; row_unique := true;
                  row_defaults := Some "{}" |} ];
     next_id := 3; faults := []; log := [] |}.

(** The storage of [st], failing the next statement with [msg]. *)
Definition failing (msg : string) (st : Store) : Store :=
  {| rows := rows st; next_id := next_id st;
     faults := Some msg :: faults st; log := log st |}.

(** The catalog as the table's constraints keep it: ids distinct (the
    primary key), positive and below the sequence, names distinct (the
    unique index [ON CONFLICT (name)] relies on). *)
Definition wf_store (st : Store) : Prop :=
  NoDup (map row_id (rows st))
  /\ NoDup (map row_name (rows st))
  /\ Forall (fun id => 0 < id < next_id st) (map row_id (rows st))
  /\ 0 < next_id st.

(** ** The storage *)

Lemma lookup_name_row (name : string) (rs : list Row) (r : Row) :
  lookup (EqName name) rs = Some r -> row_name r = name.
Proof.
  unfold lookup. intros H. apply find_some in H. simpl in H.
  now apply String.eqb_eq.
Qed.

Lemma lookup_id_row (id : Z) (rs : list Row) (r : Row) :
  lookup (EqId id) rs = Some r -> row_id r = id.
Proof.
  unfold lookup. intros H. apply find_some in H. simpl in H.
  now apply Z.eqb_eq.
Qed.

(** After the write, the name has a row: the one the statement returns. *)
Lemma upsert_rows_lookup (name : string) (unique : bool) (fresh : Z)
    (rs : list Row) :
  lookup (EqName name) (fst (upsert_rows name unique fresh rs))
  = Some (snd (upsert_rows name unique fresh rs)).
Proof.
  unfold lookup. induction rs as [|r rs IH]; simpl.
  - now rewrite String.eqb_refl.
  - destruct (String.eqb (row_name r) name) eqn:E; simpl.
    + now rewrite String.eqb_refl.
    + destruct (upsert_rows name unique fresh rs) as [rs' r']. simpl in *.
      now rewrite E.
Qed.

(** On a conflict the row keeps its id and its defaults, and its flag
    becomes the requested flag or the stored one. *)
Lemma upsert_rows_conflict (name : string) (unique : bool) (fresh : Z)
    (rs : list Row) (r : Row) :
  lookup (EqName name) rs = Some r ->
  snd (upsert_rows name unique fresh rs)
  = {| row_id := row_id r; row_name := name;
       row_unique := unique || row_unique r;
       row_defaults := row_defaults r |}.
Proof.
  unfold lookup. induction rs as [|r0 rs IH]; simpl; [discriminate|].
  destruct (String.eqb (row_name r0) name) eqn:E; simpl.
  - intros [= ->]. reflexivity.
  - intros H. specialize (IH H).
    destruct (upsert_rows name unique fresh rs) as [rs' r']. exact IH.
Qed.

(** Without a conflict a new row is appended, with the fresh id, the
    requested flag and no defaults. *)
Lemma upsert_rows_insert (name : string) (unique : bool) (fresh : Z)
    (rs : list Row) :
  lookup (EqName name) rs = None ->
  upsert_rows name unique fresh rs
  = (rs ++ [ {| row_id := fresh; row_name := name; row_unique := unique;
                row_defaults := None |} ],
     {| row_id := fresh; row_name := name; row_unique := unique;
        row_defaults := None |}).
Proof.
  unfold lookup. induction rs as [|r0 rs IH]; simpl; [reflexivity|].
  destruct (String.eqb (row_name r0) name) eqn:E; [discriminate|].
  intros H. now rewrite (IH H).
Qed.

(** A write that does not raise the flag rewrites the row to itself. *)
Lemma upsert_rows_same (name : string) (unique : bool) (fresh : Z)
    (rs : list Row) (r : Row) :
  lookup (EqName name) rs = Some r ->
  unique || row_unique r = row_unique r ->
  fst (upsert_rows name unique fresh rs) = rs.
Proof.
  unfold lookup. induction rs as [|r0 rs IH]; simpl; [discriminate|].
  destruct (String.eqb (row_name r0) name) eqn:E; simpl.
  - intros [= ->] Hu. rewrite Hu. apply String.eqb_eq in E. subst name.
    now destruct r.
  - intros H Hu. specialize (IH H Hu).
    destruct (upsert_rows name unique fresh rs) as [rs' r']. simpl in *.
    now rewrite IH.
Qed.

(** The rows of other names are not touched. *)
Lemma upsert_rows_other (name other : string) (unique : bool) (fresh : Z)
    (rs : list Row) :
  other <> name ->
  lookup (EqName other) (fst (upsert_rows name unique fresh rs))
  = lookup (EqName other) rs.
Proof.
  intros Hne. unfold lookup. induction rs as [|r0 rs IH]; simpl.
  - destruct (String.eqb name other) eqn:E; [|reflexivity].
    apply String.eqb_eq in E. congruence.
  - destruct (String.eqb (row_name r0) name) eqn:E; simpl.
    + apply String.eqb_eq in E.
      destruct (String.eqb name other) eqn:E1;
        destruct (String.eqb (row_name r0) other) eqn:E2; try reflexivity;
        (apply String.eqb_eq in E1 || apply String.eqb_eq in E2); congruence.
    + destruct (upsert_rows name unique fresh rs) as [rs' r']. simpl in *.
      now rewrite IH.
Qed.

(** The write leaves one row for the name if there was none, and as many
    as there were otherwise. *)
Lemma upsert_rows_count (name : string) (unique : bool) (fresh : Z)
    (rs : list Row) :
  count_name name (fst (upsert_rows name unique fresh rs))
  = Nat.max 1 (count_name name rs).
Proof.
  unfold count_name. induction rs as [|r0 rs IH]; simpl.
  - now rewrite String.eqb_refl.
  - destruct (String.eqb (row_name r0) name) eqn:E; simpl.
    + now rewrite String.eqb_refl.
    + destruct (upsert_rows name unique fresh rs) as [rs' r']. simpl in *.
      now rewrite E.
Qed.

Lemma count_name_lookup (name : string) (rs : list Row) :
  lookup (EqName name) rs = None <-> count_name name rs = 0%nat.
Proof.
  unfold lookup, count_name. induction rs as [|r0 rs IH]; simpl.
  - tauto.
  - destruct (String.eqb (row_name r0) name); simpl; [|exact IH].
    split; discriminate.
Qed.

(** A read changes neither the rows nor the sequence. *)
Lemma exec_select_frame (w : where_clause) (st : Store) :
  rows (snd (exec_select w st)) = rows st
  /\ next_id (snd (exec_select w st)) = next_id st
  /\ faults (snd (exec_select w st)) = tl (faults st)
  /\ log (snd (exec_select w st)) = log st ++ [SelectForShare w].
Proof.
  unfold exec_select. destruct (next_fault st); simpl; [tauto|].
  destruct (lookup w (rows st)); simpl; tauto.
Qed.

Lemma exec_select_rows (w : where_clause) (st : Store) :
  rows (snd (exec_select w st)) = rows st.
Proof. apply exec_select_frame. Qed.

Lemma exec_upsert_log (name : string) (unique : bool) (st : Store) :
  log (snd (exec_upsert name unique st))
  = log st ++ [InsertOnConflict name unique].
Proof.
  unfold exec_upsert. destruct (next_fault st); simpl; [reflexivity|].
  now destruct (upsert_rows name unique (next_id st) (rows st)).
Qed.

(** A write that the storage refuses changes no row. *)
Lemma exec_upsert_fault (name : string) (unique : bool) (st : Store)
    (msg : string) :
  next_fault st = Some msg ->
  fst (exec_upsert name unique st) = Err (ErrDriver msg)
  /\ rows (snd (exec_upsert name unique st)) = rows st.
Proof. unfold exec_upsert. intros ->. simpl. tauto. Qed.

(** A write that goes through returns the id and the flag of the row it
    leaves under the name. *)
Lemma exec_upsert_ok (name : string) (unique : bool) (st : Store) :
  next_fault st = None ->
  fst (exec_upsert name unique st)
  = Ok (row_id (snd (upsert_rows name unique (next_id st) (rows st))),
        row_unique (snd (upsert_rows name unique (next_id st) (rows st))))
  /\ rows (snd (exec_upsert name unique st))
     = fst (upsert_rows name unique (next_id st) (rows st)).
Proof.
  unfold exec_upsert. intros ->.
  now destruct (upsert_rows name unique (next_id st) (rows st)).
Qed.

(** Whatever a write does, whenever it returns a row that row is stored
    under the name. *)
Lemma exec_upsert_returns (name : string) (unique : bool) (st : Store)
    (id : Z) (saved : bool) :
  fst (exec_upsert name unique st) = Ok (id, saved) ->
  exists r,
    lookup (EqName name) (rows (snd (exec_upsert name unique st))) = Some r
    /\ row_id r = id /\ row_unique r = saved
    /\ (unique = true -> saved = true).
Proof.
  destruct (next_fault st) as [msg|] eqn:F.
  - destruct (exec_upsert_fault name unique st msg F) as [-> _]. discriminate.
  - destruct (exec_upsert_ok name unique st F) as [-> ->].
    intros [= <- <-]. eexists. split; [apply upsert_rows_lookup|].
    repeat split. intros ->.
    destruct (lookup (EqName name) (rows st)) as [r|] eqn:L.
    + now rewrite (upsert_rows_conflict _ _ _ _ _ L).
    + now rewrite (upsert_rows_insert _ _ _ _ L).
Qed.

(** No write lowers a stored flag, of any name. *)
Lemma exec_upsert_flag_stays (name other : string) (unique : bool)
    (st : Store) :
  stored_flag other st = Some true ->
  stored_flag other (snd (exec_upsert name unique st)) = Some true.
Proof.
  unfold stored_flag. intros H.
  destruct (next_fault st) as [msg|] eqn:F.
  - now rewrite (proj2 (exec_upsert_fault name unique st msg F)).
  - rewrite (proj2 (exec_upsert_ok name unique st F)).
    destruct (String.eqb other name) eqn:E.
    + apply String.eqb_eq in E. subst other.
      rewrite upsert_rows_lookup.
      destruct (lookup (EqName name) (rows st)) as [r|] eqn:L;
        [|discriminate].
      rewrite (upsert_rows_conflict _ _ _ _ _ L). simpl in *.
      injection H as ->. now rewrite orb_true_r.
    + apply String.eqb_neq in E. now rewrite upsert_rows_other.
Qed.

(** No write changes the id stored for a name. *)
Lemma exec_upsert_id_stays (name other : string) (unique : bool)
    (st : Store) (id : Z) :
  stored_id other st = Some id ->
  stored_id other (snd (exec_upsert name unique st)) = Some id.
Proof.
  unfold stored_id. intros H.
  destruct (next_fault st) as [msg|] eqn:F.
  - now rewrite (proj2 (exec_upsert_fault name unique st msg F)).
  - rewrite (proj2 (exec_upsert_ok name unique st F)).
    destruct (String.eqb other name) eqn:E.
    + apply String.eqb_eq in E. subst other.
      rewrite upsert_rows_lookup.
      destruct (lookup (EqName name) (rows st)) as [r|] eqn:L;
        [|discriminate].
      now rewrite (upsert_rows_conflict _ _ _ _ _ L).
    + apply String.eqb_neq in E. now rewrite upsert_rows_other.
Qed.

(** A read that scans a row scanned the first row the clause matches. *)
Lemma exec_select_ok (w : where_clause) (st : Store) (id : Z)
    (name : string) (unique : bool) (ds : NullString) :
  fst (exec_select w st) = Ok (id, name, unique, ds) ->
  exists r,
    lookup w (rows st) = Some r /\ next_fault st = None
    /\ row_id r = id /\ row_name r = name /\ row_unique r = unique
    /\ scan_null (row_defaults r) = ds.
Proof.
  unfold exec_select. destruct (next_fault st); simpl; [discriminate|].
  destruct (lookup w (rows st)) as [r|]; simpl; [|discriminate].
  intros [= <- <- <- <-]. exists r. tauto.
Qed.

Lemma exec_select_no_rows (w : where_clause) (st : Store) :
  fst (exec_select w st) = Err ErrNoRows ->
  lookup w (rows st) = None /\ next_fault st = None.
Proof.
  unfold exec_select. destruct (next_fault st); simpl; [discriminate|].
  destruct (lookup w (rows st)); simpl; [discriminate|tauto].
Qed.

(** ** The programs *)

Section Properties.

Context {codec : SourceCodec}.

Lemma run_bind {A B : Type} (p : prog A) (f : A -> prog B) (st : Store) :
  run (bind p f) st
  = match run p st with
    | (Returned a, st') => run (f a) st'
    | (Panicked msg, st') => (Panicked msg, st')
    end.
Proof.
  revert st. induction p as [a|msg|w k IH|n u k IH]; intros st; simpl;
    try reflexivity.
  - destruct (exec_select w st) as [r st']. apply IH.
  - destruct (exec_upsert n u st) as [r st']. apply IH.
Qed.

Lemma run_Find (brt : BaseResourceType) (st : Store) :
  run (Find brt) st
  = (Returned (Find_scan (fst (exec_select (selector brt) st))),
     snd (exec_select (selector brt) st)).
Proof.
  unfold Find. simpl. now destruct (exec_select (selector brt) st).
Qed.

Lemma run_create (brt : BaseResourceType) (unique : bool) (st : Store) :
  run (create brt unique) st
  = (Returned (create_scan brt (fst (exec_upsert (Name brt) unique st))),
     snd (exec_upsert (Name brt) unique st)).
Proof.
  unfold create. simpl. now destruct (exec_upsert (Name brt) unique st).
Qed.

Lemma run_FindOrCreate (brt : BaseResourceType) (unique : bool)
    (st : Store) :
  run (FindOrCreate brt unique) st
  = run (FindOrCreate_found brt unique
           (Find_scan (fst (exec_select (selector brt) st))))
        (snd (exec_select (selector brt) st)).
Proof. unfold FindOrCreate. now rewrite run_bind, run_Find. Qed.

(** [FindOrCreate] is [Find] followed by what it does with its results. *)
Lemma run_FindOrCreate_after (brt : BaseResourceType) (unique : bool)
    (st st1 : Store) (res : find_result) :
  run (Find brt) st = (Returned res, st1) ->
  run (FindOrCreate brt unique) st
  = run (FindOrCreate_found brt unique res) st1.
Proof.
  rewrite run_Find, run_FindOrCreate. now intros [= <- <-].
Qed.

Lemma Find_scan_shape (res : result error selected) :
  Find_shape res (Find_scan res).
Proof.
  destruct res as [[[[id name] unique] ds]|e]; simpl.
  - destruct (Valid ds); [|constructor].
    destruct (json_unmarshal (NString ds)); constructor.
  - destruct e; constructor.
Qed.

(** The selector of a call whose id is not set is the name. *)
Lemma selector_named (brt : BaseResourceType) :
  Id brt <= 0 -> selector brt = EqName (Name brt).
Proof.
  unfold selector. intros H. destruct (0 <? Id brt) eqn:E; [|reflexivity].
  apply Z.ltb_lt in E. lia.
Qed.

Lemma selector_id (brt : BaseResourceType) :
  0 < Id brt -> selector brt = EqId (Id brt).
Proof. unfold selector. intros H. apply Z.ltb_lt in H. now rewrite H. Qed.

(** What a [create] that returns a record leaves behind. *)
Lemma create_post (brt : BaseResourceType) (unique : bool) (st st1 : Store)
    (u : UsedBaseResourceType) (err : option error) :
  run (create brt unique) st = (Returned (Some u, err), st1) ->
  err = None /\ UsedName u = Name brt /\ Defaults u = nilSource
  /\ (unique = true -> UniqueVersionHistory u = true)
  /\ exists r,
       lookup (EqName (Name brt)) (rows st1) = Some r
       /\ row_id r = ID u /\ row_unique r = UniqueVersionHistory u.
Proof.
  rewrite run_create. intros [= Hres <-].
  destruct (fst (exec_upsert (Name brt) unique st)) as [[id saved]|e] eqn:E;
    simpl in Hres; [|discriminate].
  injection Hres as <- <-. simpl.
  destruct (exec_upsert_returns _ _ _ _ _ E) as (r & L & Hid & Hu & Hp).
  repeat split; auto. now exists r.
Qed.

(** Take the branch of [FindOrCreate] that the results of [Find] select. *)
Ltac found_step :=
  cbv beta iota delta [FindOrCreate_found UniqueVersionHistory].

(** [FindOrCreate] dereferences the record only when [Find] found one. *)
Lemma FindOrCreate_no_panic (brt : BaseResourceType) (unique : bool)
    (st : Store) (msg : string) :
  fst (run (FindOrCreate brt unique) st) <> Panicked msg.
Proof.
  rewrite run_FindOrCreate.
  destruct (Find_scan_shape (fst (exec_select (selector brt) st)))
    as [| res e | id name uq ds d]; found_step.
  - rewrite run_create. discriminate.
  - discriminate.
  - destruct (Bool.eqb uq unique); [discriminate|].
    rewrite run_create. discriminate.
Qed.

(** What a [FindOrCreate] by name that returns a record leaves behind:
    the record's id and flag are those stored under the name, and a
    request for the flag is granted. *)
Lemma FindOrCreate_named_post (brt : BaseResourceType) (unique : bool)
    (st st1 : Store) (u : UsedBaseResourceType) (err : option error) :
  Id brt <= 0 ->
  run (FindOrCreate brt unique) st = (Returned (Some u, err), st1) ->
  err = None
  /\ (unique = true -> UniqueVersionHistory u = true)
  /\ exists r,
       lookup (EqName (Name brt)) (rows st1) = Some r
       /\ row_id r = ID u /\ row_unique r = UniqueVersionHistory u.
Proof.
  intros Hid. rewrite run_FindOrCreate, (selector_named brt Hid).
  remember (fst (exec_select (EqName (Name brt)) st)) as res eqn:Hres.
  destruct (Find_scan_shape res) as [| res e | id name uq ds d]; found_step.
  - intros H. apply create_post in H. tauto.
  - discriminate.
  - destruct (Bool.eqb uq unique) eqn:E.
    + intros [= <- <- <-]. simpl. apply eqb_prop in E. subst uq.
      symmetry in Hres.
      destruct (exec_select_ok _ _ _ _ _ _ Hres)
        as (r & L & _ & Hi & _ & Hu & _).
      repeat split; [now intros -> |].
      exists r. now rewrite exec_select_rows.
    + intros H. apply create_post in H. tauto.
Qed.

(** ** Find *)

(** C5: when no row matches the selector, [Find] returns the absent
    result: a nil record, found false and a nil error; [FindOrCreate]
    then goes on to the create-or-merge write.  When the storage fails the
    read, [Find] hands the storage's error to its caller as it is. *)
Theorem Find_absent_is_not_an_error (brt : BaseResourceType) (st : Store) :
  (next_fault st = None ->
   lookup (selector brt) (rows st) = None ->
   fst (run (Find brt) st) = Returned (None, false, None)
   /\ forall unique,
        run (FindOrCreate brt unique) st
        = run (create brt unique) (snd (run (Find brt) st)))
  /\ (forall msg,
        next_fault st = Some msg ->
        fst (run (Find brt) st) = Returned (None, false, Some (ErrDriver msg))
        /\ forall unique,
             fst (run (FindOrCreate brt unique) st)
             = Returned (None, Some (ErrDriver msg))).
Proof.
  split.
  - intros F L. rewrite run_Find. cbn [fst snd].
    assert (E : fst (exec_select (selector brt) st) = Err ErrNoRows)
      by (unfold exec_select; now rewrite F, L).
    rewrite E. split; [reflexivity|].
    intros unique. rewrite run_FindOrCreate, E. reflexivity.
  - intros msg F. rewrite run_Find. cbn [fst snd].
    assert (E : fst (exec_select (selector brt) st) = Err (ErrDriver msg))
      by (unfold exec_select; now rewrite F).
    rewrite E. split; [reflexivity|].
    intros unique. rewrite run_FindOrCreate, E. reflexivity.
Qed.

(** C6: when the matching row has a defaults payload that does not
    decode, [Find] returns the decoder's error, which is neither the absent
    result nor an error of the storage. *)
Theorem Find_undecodable_defaults (brt : BaseResourceType) (st : Store)
    (r : Row) (payload msg : string) :
  next_fault st = None ->
  lookup (selector brt) (rows st) = Some r ->
  row_defaults r = Some payload ->
  json_unmarshal payload = Err msg ->
  fst (run (Find brt) st) = Returned (None, false, Some (ErrUnmarshal msg))
  /\ fst (run (Find brt) st) <> Returned (None, false, None)
  /\ forall m,
       fst (run (Find brt) st) <> Returned (None, false, Some (ErrDriver m)).
Proof.
  intros F L D J.
  assert (E : fst (run (Find brt) st)
              = Returned (None, false, Some (ErrUnmarshal msg))).
  { rewrite run_Find. unfold exec_select. rewrite F, L. simpl.
    rewrite D. simpl. now rewrite J. }
  rewrite E. repeat split; [discriminate|]. intros m. discriminate.
Qed.

(** C7: when the id of the receiver is set to a real value, the read is
    by id and the name plays no part in it. *)
Theorem Find_id_dominates (id : Z) (name name' : string) (st : Store) :
  0 < id ->
  Find {| Id := id; Name := name |}
  = Select (EqId id) (fun res => Ret (Find_scan res))
  /\ run (Find {| Id := id; Name := name |}) st
     = run (Find {| Id := id; Name := name' |}) st.
Proof.
  intros H. unfold Find.
  rewrite (selector_id {| Id := id; Name := name |} H).
  rewrite (selector_id {| Id := id; Name := name' |} H). now split.
Qed.

(** ** FindOrCreate *)

(** C3: when the read of [FindOrCreate] finds a record whose flag is the
    requested one, [FindOrCreate] returns that record as it is, and the read
    is the only statement it sends: no row and no sequence value changes. *)
Theorem FindOrCreate_fast_path (brt : BaseResourceType) (unique : bool)
    (st st1 : Store) (u : UsedBaseResourceType) :
  run (Find brt) st = (Returned (Some u, true, None), st1) ->
  UniqueVersionHistory u = unique ->
  run (FindOrCreate brt unique) st = (Returned (Some u, None), st1)
  /\ rows st1 = rows st
  /\ next_id st1 = next_id st
  /\ log st1 = log st ++ [SelectForShare (selector brt)].
Proof.
  intros HF Hu. rewrite (run_FindOrCreate_after _ _ _ _ _ HF).
  rewrite run_Find in HF. injection HF as _ <-.
  destruct u as [i n q d]; simpl in Hu; subst q.
  found_step. rewrite eqb_reflx.
  split; [reflexivity|]. repeat split; apply exec_select_frame.
Qed.

(** C10: when the read of [FindOrCreate] returns an error, [FindOrCreate]
    returns that error with a nil record, and the read is the only
    statement it sends: no row and no sequence value changes. *)
Theorem FindOrCreate_read_error (brt : BaseResourceType) (unique : bool)
    (st st1 : Store) (ubrt : option UsedBaseResourceType) (found : bool)
    (e : error) :
  run (Find brt) st = (Returned (ubrt, found, Some e), st1) ->
  run (FindOrCreate brt unique) st = (Returned (None, Some e), st1)
  /\ rows st1 = rows st
  /\ next_id st1 = next_id st
  /\ log st1 = log st ++ [SelectForShare (selector brt)].
Proof.
  intros HF. rewrite (run_FindOrCreate_after _ _ _ _ _ HF).
  rewrite run_Find in HF. injection HF as _ <-.
  split; [reflexivity|]. repeat split; apply exec_select_frame.
Qed.

(** No call lowers a stored flag, whatever it returns. *)
Lemma FindOrCreate_flag_stays (brt : BaseResourceType) (unique : bool)
    (st : Store) (name : string) :
  stored_flag name st = Some true ->
  stored_flag name (snd (run (FindOrCreate brt unique) st)) = Some true.
Proof.
  intros H.
  assert (H1 : stored_flag name (snd (exec_select (selector brt) st))
               = Some true)
    by (unfold stored_flag; now rewrite exec_select_rows).
  rewrite run_FindOrCreate.
  destruct (Find_scan_shape (fst (exec_select (selector brt) st)))
    as [| res e | id nm uq ds d]; found_step.
  - rewrite run_create. now apply exec_upsert_flag_stays.
  - exact H1.
  - destruct (Bool.eqb uq unique); [exact H1|].
    rewrite run_create. now apply exec_upsert_flag_stays.
Qed.

(** C1: when [FindOrCreate] is called for a name once with true and once
    with false, in either order, and both calls return a record, the flag
    stored for the name is true afterwards; and a flag that is stored as
    true is still true after any later call with false, whatever that call
    returns. *)
Theorem FindOrCreate_monotonic_or (brt : BaseResourceType) (st : Store) :
  Id brt <= 0 ->
  (forall f1 f2 u1 st1 u2 st2,
      f1 <> f2 ->
      run (FindOrCreate brt f1) st = (Returned (Some u1, None), st1) ->
      run (FindOrCreate brt f2) st1 = (Returned (Some u2, None), st2) ->
      stored_flag (Name brt) st2 = Some true)
  /\ (stored_flag (Name brt) st = Some true ->
      stored_flag (Name brt) (snd (run (FindOrCreate brt false) st))
      = Some true).
Proof.
  intros Hid. split; [|apply FindOrCreate_flag_stays].
  intros f1 f2 u1 st1 u2 st2 Hne H1 H2.
  destruct (FindOrCreate_named_post _ _ _ _ _ _ Hid H1)
    as (_ & Hp1 & r1 & L1 & _ & Hu1).
  destruct (FindOrCreate_named_post _ _ _ _ _ _ Hid H2)
    as (_ & Hp2 & r2 & L2 & _ & Hu2).
  destruct f2.
  - unfold stored_flag. rewrite L2. simpl. now rewrite Hu2, Hp2.
  - destruct f1; [|congruence].
    replace st2 with (snd (run (FindOrCreate brt false) st1))
      by now rewrite H2.
    apply FindOrCreate_flag_stays.
    unfold stored_flag. rewrite L1. simpl. now rewrite Hu1, Hp1.
Qed.

(** C4: two calls of [FindOrCreate] for a name with the same flag, one
    after the other, return the same id, and the second call leaves the
    flag stored for the name, and every row of the table, as the first
    call left it. *)
Theorem FindOrCreate_idempotent (brt : BaseResourceType) (f : bool)
    (st st1 st2 : Store) (u1 u2 : UsedBaseResourceType) :
  Id brt <= 0 ->
  run (FindOrCreate brt f) st = (Returned (Some u1, None), st1) ->
  run (FindOrCreate brt f) st1 = (Returned (Some u2, None), st2) ->
  ID u1 = ID u2
  /\ stored_flag (Name brt) st2 = stored_flag (Name brt) st1
  /\ rows st2 = rows st1.
Proof.
  intros Hid H1 H2.
  destruct (FindOrCreate_named_post _ _ _ _ _ _ Hid H1)
    as (_ & Hp1 & r1 & L1 & Hi1 & Hu1).
  assert (Hrows : rows st2 = rows st1).
  { revert H2. rewrite run_FindOrCreate, (selector_named brt Hid).
    remember (fst (exec_select (EqName (Name brt)) st1)) as res eqn:Hres.
    symmetry in Hres.
    destruct (Find_scan_shape res) as [| res e | id nm uq ds d]; found_step.
    - apply exec_select_no_rows in Hres. destruct Hres; congruence.
    - discriminate.
    - destruct (exec_select_ok _ _ _ _ _ _ Hres)
        as (r & L & _ & _ & _ & Hu & _).
      assert (r = r1) by congruence. subst r.
      destruct (Bool.eqb uq f) eqn:E.
      + intros [= _ <-]. apply exec_select_rows.
      + rewrite run_create. intros [= Hres2 <-].
        destruct (next_fault (snd (exec_select (EqName (Name brt)) st1)))
          as [msg|] eqn:F.
        * rewrite (proj2 (exec_upsert_fault _ _ _ _ F)).
          apply exec_select_rows.
        * rewrite (proj2 (exec_upsert_ok _ _ _ F)), exec_select_rows.
          apply upsert_rows_same with (r := r1); [exact L1|].
          apply eqb_false_iff in E.
          destruct f; [|reflexivity].
          rewrite Hu1, Hp1; reflexivity. }
  destruct (FindOrCreate_named_post _ _ _ _ _ _ Hid H2)
    as (_ & _ & r2 & L2 & Hi2 & _).
  rewrite Hrows in L2. unfold stored_flag. rewrite Hrows.
  split; [congruence|]. split; reflexivity.
Qed.

(** ** create *)

(** C2: when the name already has a row and the storage does not fail,
    the one statement of [create] sets the row's flag to the requested flag
    or the stored one, so a stored true stays; it adds no row and keeps the
    row's id and defaults; and the record [create] returns carries the id
    and the flag of the row as that statement left it.  A single step of the
    caller performs the write and yields the record. *)
Theorem create_merges_on_conflict (brt : BaseResourceType) (unique : bool)
    (st : Store) (r : Row) :
  next_fault st = None ->
  lookup (EqName (Name brt)) (rows st) = Some r ->
  let merged := unique || row_unique r in
  let u := {| ID := row_id r; UsedName := Name brt;
              UniqueVersionHistory := merged; Defaults := nilSource |} in
  let st' := snd (run (create brt unique) st) in
  fst (run (create brt unique) st) = Returned (Some u, None)
  /\ step (create brt unique) st = (Ret (Some u, None), st')
  /\ lookup (EqName (Name brt)) (rows st')
     = Some {| row_id := row_id r; row_name := Name brt;
               row_unique := merged; row_defaults := row_defaults r |}
  /\ (row_unique r = true -> merged = true)
  /\ count_name (Name brt) (rows st') = count_name (Name brt) (rows st)
  /\ log st' = log st ++ [InsertOnConflict (Name brt) unique].
Proof.
  intros F L merged u st'. subst st'. rewrite run_create. cbn [fst snd].
  destruct (exec_upsert_ok (Name brt) unique st F) as [E R].
  rewrite (upsert_rows_conflict _ _ _ _ _ L) in E. simpl in E.
  assert (C : count_name (Name brt) (rows st) <> 0%nat)
    by (rewrite <- count_name_lookup; congruence).
  repeat split.
  - rewrite E. reflexivity.
  - unfold create, step.
    destruct (exec_upsert (Name brt) unique st) as [res st'].
    simpl in E. subst res. reflexivity.
  - rewrite R, upsert_rows_lookup. f_equal.
    apply (upsert_rows_conflict _ _ _ _ _ L).
  - subst merged. intros ->. apply orb_true_r.
  - rewrite R, upsert_rows_count. lia.
  - apply exec_upsert_log.
Qed.

(** C8: a [FindOrCreate] that goes on to the write, on a storage that
    does not fail it, returns a record with the receiver's name, the id and
    the flag stored under that name after the write, and the zero value for
    the defaults.  On first creation the flag is the requested one and the
    new row has no defaults, so the record is what [Find] would scan from
    that row.  On a merge the id is the row's, the flag is the requested
    flag or the stored one, and the row keeps its defaults, which the record
    does not carry. *)
Theorem FindOrCreate_write_path (brt : BaseResourceType) (unique : bool)
    (st st1 : Store) (ubrt : option UsedBaseResourceType) (found : bool) :
  run (Find brt) st = (Returned (ubrt, found, None), st1) ->
  (found = false
   \/ exists u, ubrt = Some u /\ UniqueVersionHistory u <> unique) ->
  next_fault st1 = None ->
  exists u st2 row,
    run (FindOrCreate brt unique) st = (Returned (Some u, None), st2)
    /\ lookup (EqName (Name brt)) (rows st2) = Some row
    /\ ID u = row_id row
    /\ UsedName u = Name brt /\ row_name row = Name brt
    /\ UniqueVersionHistory u = row_unique row
    /\ Defaults u = nilSource
    /\ match lookup (EqName (Name brt)) (rows st) with
       | None =>
           row_id row = next_id st
           /\ row_unique row = unique
           /\ row_defaults row = None
           /\ Find_scan (Ok (row_id row, row_name row, row_unique row,
                             scan_null (row_defaults row)))
              = (Some u, true, None)
       | Some r =>
           row_id row = row_id r
           /\ row_unique row = unique || row_unique r
           /\ row_defaults row = row_defaults r
       end.
Proof.
  intros HF Hpath F.
  rewrite (run_FindOrCreate_after _ _ _ _ _ HF).
  assert (Hc : run (FindOrCreate_found brt unique (ubrt, found, None)) st1
               = run (create brt unique) st1).
  { found_step. destruct Hpath as [-> | (u & -> & Hu)]; [reflexivity|].
    destruct found; [|reflexivity].
    apply eqb_false_iff in Hu. fold (UniqueVersionHistory u).
    now rewrite Hu. }
  rewrite Hc, run_create.
  rewrite run_Find in HF. injection HF as _ <-.
  destruct (exec_upsert_ok (Name brt) unique _ F) as [E R].
  rewrite exec_select_rows in E, R.
  destruct (exec_select_frame (selector brt) st) as (_ & Hn & _).
  rewrite Hn in E, R. rewrite E.
  set (row := snd (upsert_rows (Name brt) unique (next_id st) (rows st)))
    in *.
  eexists _, _, row. split; [reflexivity|].
  split; [rewrite R; apply upsert_rows_lookup|].
  destruct (lookup (EqName (Name brt)) (rows st)) as [r|] eqn:L.
  - pose proof (upsert_rows_conflict _ unique (next_id st) _ _ L) as C.
    fold row in C. rewrite C. simpl. repeat split.
  - pose proof (upsert_rows_insert _ unique (next_id st) _ L) as C.
    apply (f_equal snd) in C. fold row in C. simpl in C. rewrite C.
    simpl. repeat split.
Qed.

(** ** Several callers of one name *)

Lemma step_FindOrCreate (brt : BaseResourceType) (unique : bool)
    (st : Store) :
  step (FindOrCreate brt unique) st
  = (FindOrCreate_found brt unique
       (Find_scan (fst (exec_select (selector brt) st))),
     snd (exec_select (selector brt) st)).
Proof.
  unfold FindOrCreate, Find. simpl.
  now destruct (exec_select (selector brt) st).
Qed.

Lemma step_create (brt : BaseResourceType) (unique : bool) (st : Store) :
  step (create brt unique) st
  = (Ret (create_scan brt (fst (exec_upsert (Name brt) unique st))),
     snd (exec_upsert (Name brt) unique st)).
Proof.
  unfold create. simpl. now destruct (exec_upsert (Name brt) unique st).
Qed.

Lemma evolves_same_rows (name : string) (st st' : Store) :
  rows st' = rows st -> evolves name st st'.
Proof. intros E r L. exists r. rewrite E. tauto. Qed.

Lemma evolves_trans (name : string) (st1 st2 st3 : Store) :
  evolves name st1 st2 -> evolves name st2 st3 -> evolves name st1 st3.
Proof.
  intros H12 H23 r L. destruct (H12 r L) as (r2 & L2 & I2 & U2).
  destruct (H23 r2 L2) as (r3 & L3 & I3 & U3).
  exists r3. repeat split; [exact L3|congruence|auto].
Qed.

Lemma exec_upsert_evolves (name : string) (unique : bool) (st : Store) :
  evolves name st (snd (exec_upsert name unique st)).
Proof.
  intros r L. destruct (next_fault st) as [msg|] eqn:F.
  - exists r. rewrite (proj2 (exec_upsert_fault _ _ _ _ F)). tauto.
  - rewrite (proj2 (exec_upsert_ok _ _ _ F)), upsert_rows_lookup.
    rewrite (upsert_rows_conflict _ _ _ _ _ L). eexists. split; [reflexivity|].
    simpl. split; [reflexivity|]. intros ->. apply orb_true_r.
Qed.

(** A flag that is true after a write was true before it or was asked
    for by it. *)
Lemma exec_upsert_flag_source (name : string) (unique : bool) (st : Store) :
  stored_flag name (snd (exec_upsert name unique st)) = Some true ->
  stored_flag name st = Some true \/ unique = true.
Proof.
  unfold stored_flag. destruct (next_fault st) as [msg|] eqn:F.
  - rewrite (proj2 (exec_upsert_fault _ _ _ _ F)). tauto.
  - rewrite (proj2 (exec_upsert_ok _ _ _ F)), upsert_rows_lookup.
    destruct (lookup (EqName name) (rows st)) as [r|] eqn:L.
    + rewrite (upsert_rows_conflict _ _ _ _ _ L). simpl.
      intros [= H]. apply orb_true_iff in H. destruct H as [H|H]; [tauto|].
      left. now rewrite H.
    + rewrite (upsert_rows_insert _ _ _ _ L). simpl. intros [= H]. tauto.
Qed.

(** No write gives a name a second row. *)
Lemma exec_upsert_unique_name (name : string) (unique : bool) (st : Store) :
  (count_name name (rows st) <= 1)%nat ->
  (count_name name (rows (snd (exec_upsert name unique st))) <= 1)%nat.
Proof.
  intros H. destruct (next_fault st) as [msg|] eqn:F.
  - now rewrite (proj2 (exec_upsert_fault _ _ _ _ F)).
  - rewrite (proj2 (exec_upsert_ok _ _ _ F)), upsert_rows_count. lia.
Qed.

Lemma caller_at_evolves (name : string) (f : bool) (st st' : Store)
    (p : prog create_result) :
  evolves name st st' -> caller_at name f st p -> caller_at name f st' p.
Proof.
  intros Hev [| | e | u r L Hi Hf]; try constructor.
  destruct (Hev r L) as (r' & L' & Hi' & Hf').
  apply at_returned with (r := r'); [exact L'|congruence|auto].
Qed.

(** One statement of one caller. *)
Lemma step_caller (name : string) (f : bool) (st : Store)
    (p : prog create_result) :
  caller_at name f st p ->
  caller_at name f (snd (step p st)) (fst (step p st))
  /\ evolves name st (snd (step p st))
  /\ ((count_name name (rows st) <= 1)%nat ->
      (count_name name (rows (snd (step p st))) <= 1)%nat)
  /\ (stored_flag name (snd (step p st)) = Some true ->
      stored_flag name st = Some true \/ f = true).
Proof.
  intros [| | e | u r L Hi Hf].
  - rewrite step_FindOrCreate. cbn [fst snd].
    pose proof (exec_select_rows (selector (named name)) st) as R.
    repeat split;
      [| now apply evolves_same_rows | now rewrite R
       | unfold stored_flag; rewrite R; tauto].
    remember (fst (exec_select (selector (named name)) st)) as res eqn:Hres.
    symmetry in Hres.
    destruct (Find_scan_shape res) as [| res e | id nm uq ds d]; found_step;
      try constructor.
    destruct (Bool.eqb uq f) eqn:E; [|constructor].
    apply eqb_prop in E. subst uq.
    destruct (exec_select_ok _ _ _ _ _ _ Hres)
      as (r & L & _ & Hi & _ & Hu & _).
    apply at_returned with (r := r);
      [now rewrite R | now simpl | congruence].
  - rewrite step_create. cbn [fst snd]. simpl Name.
    repeat split;
      [| apply exec_upsert_evolves | apply exec_upsert_unique_name
       | apply exec_upsert_flag_source].
    destruct (fst (exec_upsert name f st)) as [[id saved]|e] eqn:E; simpl;
      [|constructor].
    destruct (exec_upsert_returns _ _ _ _ _ E) as (r & L & Hi & Hu & Hp).
    apply at_returned with (r := r); [exact L|now simpl|].
    intros Hf. rewrite Hu. auto.
  - simpl. repeat split; [constructor|now apply evolves_same_rows|tauto|tauto].
  - simpl. repeat split;
      [now apply at_returned with (r := r)
      |now apply evolves_same_rows|tauto|tauto].
Qed.

(** One statement of the scheduled caller, among the others. *)
Lemma step_nth_callers (name : string) (st : Store) (fs : list bool)
    (ps : list (prog create_result)) :
  Forall2 (fun f p => caller_at name f st p) fs ps ->
  forall i,
    Forall2 (fun f p => caller_at name f (snd (step_nth i ps st)) p)
      fs (fst (step_nth i ps st))
    /\ evolves name st (snd (step_nth i ps st))
    /\ ((count_name name (rows st) <= 1)%nat ->
        (count_name name (rows (snd (step_nth i ps st))) <= 1)%nat)
    /\ (stored_flag name (snd (step_nth i ps st)) = Some true ->
        stored_flag name st = Some true \/ In true fs).
Proof.
  induction 1 as [|f p fs ps Hp Hrest IH]; intros i.
  - destruct i; simpl;
      (repeat split; [constructor|now apply evolves_same_rows|tauto|tauto]).
  - destruct i as [|j]; simpl.
    + destruct (step_caller name f st p Hp) as (Hp' & Hev & Hc & Hfl).
      destruct (step p st) as [p' st']. simpl in *.
      repeat split; [|exact Hev|exact Hc|intuition].
      constructor; [exact Hp'|].
      eapply Forall2_impl; [|exact Hrest].
      intros g q. now apply caller_at_evolves.
    + destruct (IH j) as (Hps & Hev & Hc & Hfl).
      destruct (step_nth j ps st) as [ps' st']. simpl in *.
      repeat split; [|exact Hev|exact Hc|intuition].
      constructor; [|exact Hps]. now apply caller_at_evolves with (st := st).
Qed.

(** The invariant holds before the first statement of callers that
    register an unseen name, and every schedule keeps it. *)
Lemma registry_inv_init (name : string) (flags : list bool) (st : Store) :
  lookup (EqName name) (rows st) = None ->
  registry_inv name flags (callers name flags) st.
Proof.
  intros L. repeat split.
  - unfold callers. induction flags; simpl; constructor; [constructor|auto].
  - apply count_name_lookup in L. lia.
  - unfold stored_flag. rewrite L. discriminate.
Qed.

Lemma registry_inv_run (name : string) (flags : list bool)
    (sched : list nat) :
  forall ps st,
    registry_inv name flags ps st ->
    registry_inv name flags (fst (run_sched sched ps st))
      (snd (run_sched sched ps st)).
Proof.
  induction sched as [|i sched IH]; intros ps st Hinv; [exact Hinv|].
  simpl. destruct Hinv as (Hps & Hc & Hfl).
  destruct (step_nth_callers name st flags ps Hps i) as (Hps' & _ & Hc' & Hfl').
  destruct (step_nth i ps st) as [ps' st']. simpl in *.
  apply IH. repeat split; [exact Hps'|auto|intuition].
Qed.

Lemma caller_at_resolved (name : string) (f : bool) (st : Store)
    (u : UsedBaseResourceType) :
  caller_at name f st (Ret (Some u, None)) ->
  exists r,
    lookup (EqName name) (rows st) = Some r
    /\ ID u = row_id r /\ (f = true -> row_unique r = true).
Proof.
  intros H. remember (Ret (Some u, None)) as p eqn:Hp.
  destruct H as [| | e | u' r L Hi Hf].
  - unfold FindOrCreate, Find in Hp. simpl in Hp. discriminate.
  - unfold create in Hp. discriminate.
  - discriminate.
  - injection Hp as ->. now exists r.
Qed.

(** What the store holds once every caller has returned a record. *)
Lemma resolved_callers (name : string) (st : Store) (r : Row)
    (us : list UsedBaseResourceType) :
  lookup (EqName name) (rows st) = Some r ->
  forall flags,
    Forall2 (fun f p => caller_at name f st p) flags (resolved us) ->
    Forall (fun u => ID u = row_id r) us
    /\ (In true flags -> row_unique r = true)
    /\ List.length us = List.length flags.
Proof.
  intros L. induction us as [|u us IH]; intros flags H;
    inversion H as [|f p fs ps Hhd Htl]; subst.
  - repeat split; [constructor|intros []].
  - destruct (IH fs Htl) as (Hids & Hfl & Hlen).
    destruct (caller_at_resolved _ _ _ _ Hhd) as (r' & L' & Hi & Hf).
    assert (r' = r) by congruence. subst r'.
    repeat split.
    + constructor; assumption.
    + intros [-> | Hin]; auto.
    + simpl. now rewrite Hlen.
Qed.

(** *** Every caller returns *)

Lemma step_nth_store {A : Type} (ps : list (prog A)) (st : Store) :
  forall i,
    snd (step_nth i ps st)
    = match nth_error ps i with
      | Some p => snd (step p st)
      | None => st
      end.
Proof.
  induction ps as [|p ps IH]; intros [|i]; simpl; try reflexivity.
  - now destruct (step p st).
  - rewrite <- IH. now destruct (step_nth i ps st).
Qed.

Lemma step_nth_caller {A : Type} (ps : list (prog A)) (st : Store) :
  forall i j,
    nth_error (fst (step_nth i ps st)) j
    = if Nat.eqb j i
      then option_map (fun p => fst (step p st)) (nth_error ps j)
      else nth_error ps j.
Proof.
  induction ps as [|p ps IH]; intros i j.
  - destruct i, j; simpl; try reflexivity; now destruct (Nat.eqb j i).
  - destruct i as [|i], j as [|j]; simpl.
    + now destruct (step p st).
    + now destruct (step p st).
    + now destruct (step_nth i ps st).
    + rewrite <- IH. now destruct (step_nth i ps st).
Qed.

Lemma caller_live_weaken (name : string) (n m : nat)
    (p : prog create_result) :
  (n <= m)%nat -> caller_live name n p -> caller_live name m p.
Proof.
  intros H Hl. revert H.
  destruct Hl as [f k Hk | f k Hk | u k]; intros H; constructor; lia.
Qed.

(** One statement of a caller on a clean storage brings it one statement
    closer to its record and leaves the storage clean. *)
Lemma step_live (name : string) (n : nat) (st : Store)
    (p : prog create_result) :
  clean name st ->
  caller_live name n p ->
  caller_live name (Nat.pred n) (fst (step p st))
  /\ clean name (snd (step p st)).
Proof.
  intros [F D] [f k Hk | f k Hk | u k].
  - rewrite step_FindOrCreate. cbn [fst snd].
    destruct (exec_select_frame (selector (named name)) st)
      as (R & _ & Ft & _).
    split; [|split; [now rewrite Ft, F | now rewrite R]].
    change (selector (named name)) with (EqName name).
    destruct (lookup (EqName name) (rows st)) as [r|] eqn:L.
    + assert (E : fst (exec_select (EqName name) st)
                  = Ok (row_id r, row_name r, row_unique r, scan_null None)).
      { unfold exec_select, next_fault. rewrite F, L. simpl.
        now rewrite (D r eq_refl). }
      rewrite E. cbn [Find_scan scan_null Valid]. found_step.
      destruct (Bool.eqb (row_unique r) f); constructor. lia.
    + assert (E : fst (exec_select (EqName name) st) = Err ErrNoRows)
        by (unfold exec_select, next_fault; now rewrite F, L).
      rewrite E. cbn [Find_scan]. found_step. constructor. lia.
  - rewrite step_create. cbn [fst snd]. simpl Name.
    assert (F' : next_fault st = None) by (unfold next_fault; now rewrite F).
    destruct (exec_upsert_ok name f st F') as [E R]. rewrite E. simpl.
    split; [constructor|]. split.
    + unfold exec_upsert. rewrite F'.
      destruct (upsert_rows name f (next_id st) (rows st)). simpl.
      now rewrite F.
    + intros r. rewrite R, upsert_rows_lookup. intros [= <-].
      destruct (lookup (EqName name) (rows st)) as [r0|] eqn:L.
      * rewrite (upsert_rows_conflict _ _ _ _ _ L). simpl. auto.
      * now rewrite (upsert_rows_insert _ _ _ _ L).
  - simpl. split; [constructor|now split].
Qed.

(** A schedule brings every caller as many statements closer to its
    record as it gives it turns. *)
Lemma run_sched_live (name : string) (sched : list nat) :
  forall (credit : nat -> nat) ps st,
    clean name st ->
    (forall i p, nth_error ps i = Some p -> caller_live name (credit i) p) ->
    forall i p,
      nth_error (fst (run_sched sched ps st)) i = Some p ->
      caller_live name (credit i - turns sched i) p.
Proof.
  induction sched as [|j sched IH]; intros credit ps st Hc Hps i p.
  - simpl. rewrite Nat.sub_0_r. apply Hps.
  - simpl. pose proof (step_nth_store ps st j) as Hst.
    pose proof (step_nth_caller ps st j) as Hnth.
    destruct (step_nth j ps st) as [ps' st']. simpl in Hst, Hnth.
    intros Hp.
    assert (Hc' : clean name st').
    { rewrite Hst. destruct (nth_error ps j) as [q|] eqn:Q; [|exact Hc].
      apply (step_live name (credit j) st q Hc (Hps j q Q)). }
    assert (Hps' : forall i p,
               nth_error ps' i = Some p ->
               caller_live name
                 (if Nat.eqb i j then Nat.pred (credit i) else credit i) p).
    { intros i0 p0. rewrite Hnth. destruct (Nat.eqb i0 j) eqn:E.
      - destruct (nth_error ps i0) as [q|] eqn:Q; [|discriminate].
        simpl. intros [= <-].
        apply (step_live name (credit i0) st q Hc (Hps i0 q Q)).
      - apply Hps. }
    specialize (IH _ ps' st' Hc' Hps' i p Hp).
    eapply caller_live_weaken; [|exact IH].
    unfold turns. simpl.
    destruct (Nat.eq_dec j i) as [->|Hne].
    + rewrite Nat.eqb_refl. lia.
    + destruct (Nat.eqb i j) eqn:E; [|lia].
      apply Nat.eqb_eq in E. congruence.
Qed.

Lemma caller_live_done (name : string) (p : prog create_result) :
  caller_live name 0 p -> exists u, p = Ret (Some u, None).
Proof. intros H. inversion H; subst; try lia. now exists u. Qed.

Lemma all_resolved (ps : list (prog create_result)) :
  (forall i p, nth_error ps i = Some p -> exists u, p = Ret (Some u, None)) ->
  exists us, ps = resolved us.
Proof.
  induction ps as [|p ps IH]; intros H.
  - now exists [].
  - destruct (H 0%nat p eq_refl) as (u & ->).
    destruct IH as (us & ->); [intros i q Hq; apply (H (S i) q Hq)|].
    now exists (u :: us).
Qed.

Lemma run_sched_length {A : Type} (sched : list nat) :
  forall (ps : list (prog A)) st,
    List.length (fst (run_sched sched ps st)) = List.length ps.
Proof.
  induction sched as [|i sched IH]; intros ps st; [reflexivity|].
  simpl. destruct (step_nth i ps st) as [ps' st'] eqn:E. rewrite IH.
  clear IH. revert i ps' st' E.
  induction ps as [|p ps IHps]; intros [|i] ps' st' E; simpl in E.
  - now injection E as <- _.
  - now injection E as <- _.
  - destruct (step p st). now injection E as <- _.
  - destruct (step_nth i ps st) as [ps'' st''] eqn:E'.
    injection E as <- _. simpl. f_equal. eapply IHps. exact E'.
Qed.

(** On a storage that does not fail, callers that register an unseen
    name have all returned a record once each has had two turns. *)
Lemma concurrent_registration_resolves (name : string) (flags : list bool)
    (sched : list nat) (st : Store) :
  faults st = [] ->
  lookup (EqName name) (rows st) = None ->
  (forall i, (i < List.length flags)%nat -> (2 <= turns sched i)%nat) ->
  exists us, fst (run_sched sched (callers name flags) st) = resolved us.
Proof.
  intros F L Hfair. apply all_resolved. intros i p Hp.
  apply (caller_live_done name).
  assert (Hi : (i < List.length flags)%nat).
  { rewrite <- (length_map (FindOrCreate (named name)) flags).
    fold (callers name flags).
    rewrite <- (run_sched_length sched (callers name flags) st).
    apply nth_error_Some. congruence. }
  replace 0%nat with (2 - turns sched i)%nat by (specialize (Hfair i Hi); lia).
  apply (run_sched_live name sched (fun _ => 2%nat) (callers name flags) st);
    [| |exact Hp].
  - split; [exact F|]. intros r. rewrite L. discriminate.
  - intros j q Hq. unfold callers in Hq.
    rewrite nth_error_map in Hq.
    destruct (nth_error flags j); [|discriminate].
    injection Hq as <-. now constructor.
Qed.

(** C9: callers that register one unseen name, each with its own flag,
    their statements executed by the storage one at a time in any order.
    Once every caller has returned a record, the catalog has exactly one row
    of that name, every record carries the id of that row, and the flag of
    the row is the logical or of the flags the callers asked for.  And on a
    storage that does not fail, every caller has returned a record once the
    schedule has given each of them two turns. *)
Theorem concurrent_first_registration (name : string) (flags : list bool)
    (sched : list nat) (st : Store) :
  flags <> [] ->
  lookup (EqName name) (rows st) = None ->
  (forall us st',
      run_sched sched (callers name flags) st = (resolved us, st') ->
      exists r,
        lookup (EqName name) (rows st') = Some r
        /\ count_name name (rows st') = 1%nat
        /\ List.length us = List.length flags
        /\ Forall (fun u => ID u = row_id r) us
        /\ row_unique r = any_flag flags)
  /\ (faults st = [] ->
      (forall i, (i < List.length flags)%nat -> (2 <= turns sched i)%nat) ->
      exists us, fst (run_sched sched (callers name flags) st) = resolved us).
Proof.
  intros Hne L.
  split; [|intros F Hfair; now apply concurrent_registration_resolves].
  intros us st' Hrun.
  pose proof (registry_inv_run name flags sched _ _
                (registry_inv_init name flags st L)) as Hinv.
  rewrite Hrun in Hinv. cbn [fst snd] in Hinv.
  destruct Hinv as (Hps & Hc & Hfl).
  assert (Hrow : exists r, lookup (EqName name) (rows st') = Some r).
  { destruct flags as [|f fs]; [congruence|].
    destruct us as [|u us']; [inversion Hps|].
    inversion Hps as [|f' p fs' ps Hhd Htl]; subst.
    destruct (caller_at_resolved _ _ _ _ Hhd) as (r & Lr & _). now exists r. }
  destruct Hrow as (r & Lr). exists r.
  destruct (resolved_callers name st' r us Lr flags Hps)
    as (Hids & Htrue & Hlen).
  repeat split; try assumption.
  - assert (count_name name (rows st') <> 0%nat)
      by (rewrite <- count_name_lookup; congruence).
    lia.
  - unfold any_flag. destruct (row_unique r) eqn:U.
    + symmetry. apply existsb_exists. exists true. split; [|reflexivity].
      apply Hfl. unfold stored_flag. rewrite Lr. simpl. now rewrite U.
    + destruct (existsb (fun f => f) flags) eqn:E; [|reflexivity].
      apply existsb_exists in E. destruct E as (f & Hin & Hf).
      simpl in Hf. subst f.
      specialize (Htrue Hin). discriminate.
Qed.

(** ** The catalog's constraints *)

Lemma lookup_name_none (name : string) (rs : list Row) :
  lookup (EqName name) rs = None -> ~ In name (map row_name rs).
Proof.
  unfold lookup. induction rs as [|r rs IH]; simpl; [tauto|].
  destruct (String.eqb (row_name r) name) eqn:E; [discriminate|].
  apply String.eqb_neq in E. intros H [H1|H1]; [congruence|]. now apply IH.
Qed.

(** On a conflict the write keeps every id and every name in place. *)
Lemma upsert_rows_conflict_keys (name : string) (unique : bool) (fresh : Z)
    (rs : list Row) (r : Row) :
  lookup (EqName name) rs = Some r ->
  map row_id (fst (upsert_rows name unique fresh rs)) = map row_id rs
  /\ map row_name (fst (upsert_rows name unique fresh rs)) = map row_name rs.
Proof.
  unfold lookup. induction rs as [|r0 rs IH]; simpl; [discriminate|].
  destruct (String.eqb (row_name r0) name) eqn:E; simpl.
  - intros _. apply String.eqb_eq in E. now rewrite E.
  - intros H. destruct (IH H) as [Hi Hn].
    destruct (upsert_rows name unique fresh rs) as [rs' r']. simpl in *.
    now rewrite Hi, Hn.
Qed.

Lemma exec_upsert_next_id (name : string) (unique : bool) (st : Store) :
  next_id st <= next_id (snd (exec_upsert name unique st)).
Proof.
  unfold exec_upsert. destruct (next_fault st); simpl; [lia|].
  destruct (upsert_rows name unique (next_id st) (rows st)). simpl. lia.
Qed.

Lemma exec_select_wf (w : where_clause) (st : Store) :
  wf_store st -> wf_store (snd (exec_select w st)).
Proof.
  unfold wf_store.
  destruct (exec_select_frame w st) as (-> & -> & _). tauto.
Qed.

Lemma exec_upsert_wf (name : string) (unique : bool) (st : Store) :
  wf_store st -> wf_store (snd (exec_upsert name unique st)).
Proof.
  intros (Hid & Hnm & Hb & Hpos). unfold wf_store.
  destruct (next_fault st) as [msg|] eqn:F.
  - unfold exec_upsert. rewrite F. simpl. tauto.
  - assert (Hn : next_id (snd (exec_upsert name unique st)) = next_id st + 1).
    { unfold exec_upsert. rewrite F.
      now destruct (upsert_rows name unique (next_id st) (rows st)). }
    rewrite Hn, (proj2 (exec_upsert_ok _ _ _ F)).
    assert (Hb' : Forall (fun id => 0 < id < next_id st + 1)
                    (map row_id (rows st)))
      by (eapply Forall_impl; [|exact Hb]; simpl; intros; lia).
    destruct (lookup (EqName name) (rows st)) as [r|] eqn:L.
    + destruct (upsert_rows_conflict_keys name unique (next_id st) _ _ L)
        as [-> ->].
      repeat split; try assumption; lia.
    + rewrite (upsert_rows_insert _ _ _ _ L). simpl.
      rewrite !map_app. simpl.
      repeat split; try lia.
      * apply NoDup_app; [exact Hid|repeat constructor; intros []|].
        intros id Hin [<-|[]]. rewrite Forall_forall in Hb.
        specialize (Hb _ Hin). lia.
      * apply NoDup_app; [exact Hnm|repeat constructor; intros []|].
        intros n Hin [<-|[]]. now apply (lookup_name_none _ _ L).
      * apply Forall_app. split; [exact Hb'|]. constructor; [lia|constructor].
Qed.

(** Whatever holds of the store and is kept by both statements is kept by
    any caller, and by any schedule of callers. *)
Lemma run_preserves {A : Type} (P : Store -> Prop) :
  (forall w st, P st -> P (snd (exec_select w st))) ->
  (forall n u st, P st -> P (snd (exec_upsert n u st))) ->
  forall (p : prog A) st, P st -> P (snd (run p st)).
Proof.
  intros Hs Hu. induction p as [a|msg|w k IH|n u k IH]; intros st H; simpl;
    try exact H.
  - specialize (Hs w st H). destruct (exec_select w st) as [r st'].
    now apply IH.
  - specialize (Hu n u st H). destruct (exec_upsert n u st) as [r st'].
    now apply IH.
Qed.

Lemma step_preserves {A : Type} (P : Store -> Prop) :
  (forall w st, P st -> P (snd (exec_select w st))) ->
  (forall n u st, P st -> P (snd (exec_upsert n u st))) ->
  forall (p : prog A) st, P st -> P (snd (step p st)).
Proof.
  intros Hs Hu [a|msg|w k|n u k] st H; simpl; try exact H.
  - specialize (Hs w st H). now destruct (exec_select w st).
  - specialize (Hu n u st H). now destruct (exec_upsert n u st).
Qed.

Lemma run_sched_preserves {A : Type} (P : Store -> Prop) :
  (forall w st, P st -> P (snd (exec_select w st))) ->
  (forall n u st, P st -> P (snd (exec_upsert n u st))) ->
  forall sched (ps : list (prog A)) st,
    P st -> P (snd (run_sched sched ps st)).
Proof.
  intros Hs Hu. induction sched as [|i sched IH]; intros ps st H; [exact H|].
  simpl. pose proof (step_nth_store ps st i) as E.
  destruct (step_nth i ps st) as [ps' st']. simpl in E. apply IH.
  rewrite E. destruct (nth_error ps i); [|exact H].
  now apply step_preserves.
Qed.

(** ** Find, further *)

Lemma Find_scan_row (r : Row) (d : Source) :
  decodes (row_defaults r) d ->
  Find_scan (Ok (row_id r, row_name r, row_unique r,
                 scan_null (row_defaults r)))
  = (Some {| ID := row_id r; UsedName := row_name r;
             UniqueVersionHistory := row_unique r; Defaults := d |},
     true, None).
Proof.
  unfold decodes. destruct (row_defaults r) as [s|]; simpl.
  - now intros ->.
  - now intros ->.
Qed.

Lemma Find_scan_found (id : Z) (nm : string) (uq : bool) (c : option string)
    (u : UsedBaseResourceType) (found : bool) (err : option error) :
  Find_scan (Ok (id, nm, uq, scan_null c)) = (Some u, found, err) ->
  found = true /\ err = None /\ decodes c (Defaults u)
  /\ ID u = id /\ UsedName u = nm /\ UniqueVersionHistory u = uq.
Proof.
  unfold decodes. destruct c as [s|]; simpl.
  - destruct (json_unmarshal s); [|discriminate].
    intros [= <- <- <-]. simpl. tauto.
  - intros [= <- <- <-]. simpl. tauto.
Qed.

Lemma run_Find_row (brt : BaseResourceType) (st : Store) (r : Row)
    (d : Source) :
  next_fault st = None ->
  lookup (selector brt) (rows st) = Some r ->
  decodes (row_defaults r) d ->
  fst (run (Find brt) st)
  = Returned (Some {| ID := row_id r; UsedName := row_name r;
                      UniqueVersionHistory := row_unique r;
                      Defaults := d |}, true, None).
Proof.
  intros F L D. rewrite run_Find. cbn [fst].
  unfold exec_select. rewrite F, L. cbn [fst].
  now rewrite (Find_scan_row r d D).
Qed.

(** X1: [Find] always returns, and its three results agree: the record is
    non-nil exactly when found is true, an error comes with a nil record and
    found false, and the error is never [sql.ErrNoRows], which [Find] turns
    into the absent result. *)
Theorem Find_results_agree (brt : BaseResourceType) (st : Store) :
  exists ubrt found err,
    fst (run (Find brt) st) = Returned (ubrt, found, err)
    /\ (found = true <-> ubrt <> None)
    /\ (err <> None -> ubrt = None /\ found = false)
    /\ err <> Some ErrNoRows.
Proof.
  rewrite run_Find. cbn [fst].
  destruct (fst (exec_select (selector brt) st))
    as [[[[id nm] uq] ds]|e]; simpl.
  - destruct (Valid ds); [destruct (json_unmarshal (NString ds))|];
      do 3 eexists; (split; [reflexivity|]);
      repeat split; try congruence; try discriminate; intros H; now elim H.
  - destruct e; do 3 eexists; (split; [reflexivity|]);
      repeat split; try congruence; try discriminate; intros H; now elim H.
Qed.

(** X2: a record that [Find] returns is the first row the selector
    matches: it carries that row's id, name and flag and the decoding of its
    defaults (the zero value for NULL); the id is the receiver's when the
    read is by id, the name is the receiver's when it is by name. *)
Theorem Find_found_is_stored (brt : BaseResourceType) (st st1 : Store)
    (u : UsedBaseResourceType) (found : bool) (err : option error) :
  run (Find brt) st = (Returned (Some u, found, err), st1) ->
  found = true /\ err = None
  /\ exists r,
       lookup (selector brt) (rows st) = Some r /\ In r (rows st)
       /\ ID u = row_id r /\ UsedName u = row_name r
       /\ UniqueVersionHistory u = row_unique r
       /\ decodes (row_defaults r) (Defaults u)
       /\ (0 < Id brt -> ID u = Id brt)
       /\ (Id brt <= 0 -> UsedName u = Name brt).
Proof.
  rewrite run_Find. intros [= H _].
  destruct (fst (exec_select (selector brt) st))
    as [[[[id nm] uq] ds]|e] eqn:E.
  - destruct (exec_select_ok _ _ _ _ _ _ E)
      as (r & L & _ & <- & <- & <- & <-).
    destruct (Find_scan_found _ _ _ _ _ _ _ H)
      as (-> & -> & D & Hi & Hn & Hu).
    repeat split. exists r. repeat split; try assumption.
    + unfold lookup in L. now apply find_some in L.
    + intros Hp. rewrite (selector_id brt Hp) in L.
      rewrite Hi. now apply lookup_id_row in L.
    + intros Hp. rewrite (selector_named brt Hp) in L.
      rewrite Hn. now apply lookup_name_row in L.
  - simpl in H. destruct e; discriminate.
Qed.

(** X3: on a storage that does not fail the read, when the selector
    matches a row whose defaults are NULL or decode, [Find] returns found
    with that row's id, name and flag; a NULL defaults column gives the zero
    value without the decoder being asked. *)
Theorem Find_finds_matching_row (brt : BaseResourceType) (st : Store)
    (r : Row) (d : Source) :
  next_fault st = None ->
  lookup (selector brt) (rows st) = Some r ->
  decodes (row_defaults r) d ->
  fst (run (Find brt) st)
  = Returned (Some {| ID := row_id r; UsedName := row_name r;
                      UniqueVersionHistory := row_unique r;
                      Defaults := d |}, true, None)
  /\ (row_defaults r = None -> d = nilSource).
Proof.
  intros F L D. split; [now apply run_Find_row|].
  intros N. unfold decodes in D. now rewrite N in D.
Qed.

(** X4: [Find] sends one statement, the locked read, and changes no row
    and no sequence value, whatever it returns; read again on a storage
    that fails neither read, it returns the same results. *)
Theorem Find_changes_nothing (brt : BaseResourceType) (st : Store) :
  rows (snd (run (Find brt) st)) = rows st
  /\ next_id (snd (run (Find brt) st)) = next_id st
  /\ log (snd (run (Find brt) st))
     = log st ++ [SelectForShare (selector brt)]
  /\ (next_fault st = None ->
      next_fault (snd (run (Find brt) st)) = None ->
      fst (run (Find brt) (snd (run (Find brt) st)))
      = fst (run (Find brt) st)).
Proof.
  rewrite !run_Find. cbn [fst snd].
  destruct (exec_select_frame (selector brt) st) as (R & N & _ & Lg).
  repeat split; try assumption.
  intros F F1. f_equal. f_equal.
  unfold exec_select at 1 3. rewrite F, F1, R.
  now destruct (lookup (selector brt) (rows st)).
Qed.

(** A receiver whose id is zero or negative is read by name, and the
    value of such an id plays no part in the read. *)
Theorem Find_unset_id_reads_by_name (id id' : Z) (name : string)
    (st : Store) :
  id <= 0 -> id' <= 0 ->
  Find {| Id := id; Name := name |}
  = Select (EqName name) (fun res => Ret (Find_scan res))
  /\ run (Find {| Id := id; Name := name |}) st
     = run (Find {| Id := id'; Name := name |}) st.
Proof.
  intros H H'. unfold Find.
  rewrite (selector_named {| Id := id; Name := name |} H).
  rewrite (selector_named {| Id := id'; Name := name |} H'). now split.
Qed.

(** ** FindOrCreate, further *)

Lemma Find_scan_cases (sc : result error selected) :
  (exists u, Find_scan sc = (Some u, true, None))
  \/ (exists e, Find_scan sc = (None, false, Some e) /\ e <> ErrNoRows)
  \/ Find_scan sc = (None, false, None).
Proof.
  destruct sc as [[[[id nm] uq] ds]|e]; simpl.
  - destruct (Valid ds); [destruct (json_unmarshal (NString ds))|].
    + left. now eexists.
    + right. left. eexists. split; [reflexivity|discriminate].
    + left. now eexists.
  - destruct e.
    + right. now right.
    + right. left. eexists. split; [reflexivity|discriminate].
    + right. left. eexists. split; [reflexivity|discriminate].
Qed.

Lemma FindOrCreate_found_same (brt : BaseResourceType) (unique : bool)
    (u : UsedBaseResourceType) :
  UniqueVersionHistory u = unique ->
  FindOrCreate_found brt unique (Some u, true, None) = Ret (Some u, None).
Proof.
  intros <-. cbv beta iota delta [FindOrCreate_found]. now rewrite eqb_reflx.
Qed.

Lemma FindOrCreate_found_other (brt : BaseResourceType) (unique : bool)
    (u : UsedBaseResourceType) :
  UniqueVersionHistory u <> unique ->
  FindOrCreate_found brt unique (Some u, true, None) = create brt unique.
Proof.
  intros H. cbv beta iota delta [FindOrCreate_found].
  apply eqb_false_iff in H. now rewrite H.
Qed.

(** The three ways through [FindOrCreate]: the record as found, the error
    of the read, or the write. *)
Lemma FindOrCreate_cases (brt : BaseResourceType) (unique : bool)
    (st : Store) :
  let res := Find_scan (fst (exec_select (selector brt) st)) in
  let st1 := snd (exec_select (selector brt) st) in
  (exists u,
      res = (Some u, true, None) /\ UniqueVersionHistory u = unique
      /\ run (FindOrCreate brt unique) st = (Returned (Some u, None), st1))
  \/ (exists e,
         res = (None, false, Some e) /\ e <> ErrNoRows
         /\ run (FindOrCreate brt unique) st = (Returned (None, Some e), st1))
  \/ ((res = (None, false, None)
       \/ exists u, res = (Some u, true, None)
                    /\ UniqueVersionHistory u <> unique)
      /\ run (FindOrCreate brt unique) st = run (create brt unique) st1).
Proof.
  intros res st1. rewrite run_FindOrCreate. fold res. fold st1.
  destruct (Find_scan_cases (fst (exec_select (selector brt) st)))
    as [(u & H)|[(e & H & Hne)|H]]; fold res in H; rewrite H.
  - destruct (bool_dec (UniqueVersionHistory u) unique) as [E|E].
    + left. exists u. now rewrite (FindOrCreate_found_same _ _ _ E).
    + right. right. rewrite (FindOrCreate_found_other _ _ _ E).
      split; [right; now exists u|reflexivity].
  - right. left. now exists e.
  - right. right. split; [now left|reflexivity].
Qed.

(** A write that returns an error was refused by the storage and changed
    neither a row nor the sequence. *)
Lemma exec_upsert_err (name : string) (unique : bool) (st : Store)
    (e : error) :
  fst (exec_upsert name unique st) = Err e ->
  rows (snd (exec_upsert name unique st)) = rows st
  /\ next_id (snd (exec_upsert name unique st)) = next_id st
  /\ exists msg, e = ErrDriver msg /\ next_fault st = Some msg.
Proof.
  unfold exec_upsert. destruct (next_fault st) as [msg|]; simpl.
  - intros [= <-]. repeat split. now exists msg.
  - destruct (upsert_rows name unique (next_id st) (rows st)). discriminate.
Qed.

Lemma exec_upsert_other (name other : string) (unique : bool) (st : Store) :
  other <> name ->
  lookup (EqName other) (rows (snd (exec_upsert name unique st)))
  = lookup (EqName other) (rows st).
Proof.
  intros Hne. destruct (next_fault st) as [msg|] eqn:F.
  - now rewrite (proj2 (exec_upsert_fault _ _ _ _ F)).
  - rewrite (proj2 (exec_upsert_ok _ _ _ F)). now apply upsert_rows_other.
Qed.

Lemma upsert_rows_length (name : string) (unique : bool) (fresh : Z)
    (rs : list Row) :
  List.length (fst (upsert_rows name unique fresh rs))
  = match lookup (EqName name) rs with
    | Some _ => List.length rs
    | None => S (List.length rs)
    end.
Proof.
  unfold lookup. induction rs as [|r rs IH]; simpl; [reflexivity|].
  destruct (String.eqb (row_name r) name); simpl; [reflexivity|].
  destruct (upsert_rows name unique fresh rs) as [rs' r']. simpl in *.
  rewrite IH. now destruct (find (matches (EqName name)) rs).
Qed.

Lemma exec_upsert_length (name : string) (unique : bool) (st : Store) :
  (List.length (rows st)
   <= List.length (rows (snd (exec_upsert name unique st)))
   <= S (List.length (rows st)))%nat
  /\ (lookup (EqName name) (rows st) <> None ->
      List.length (rows (snd (exec_upsert name unique st)))
      = List.length (rows st)).
Proof.
  destruct (next_fault st) as [msg|] eqn:F.
  - rewrite (proj2 (exec_upsert_fault _ _ _ _ F)). split; [lia|reflexivity].
  - rewrite (proj2 (exec_upsert_ok _ _ _ F)), upsert_rows_length.
    destruct (lookup (EqName name) (rows st)); split; try lia; congruence.
Qed.

(** X5: [FindOrCreate] never panics and returns either a record with a
    nil error or a nil record with an error, never both and never neither;
    the error is never [sql.ErrNoRows]. *)
Theorem FindOrCreate_record_or_error (brt : BaseResourceType)
    (unique : bool) (st : Store) :
  (exists u, fst (run (FindOrCreate brt unique) st) = Returned (Some u, None))
  \/ (exists e,
         fst (run (FindOrCreate brt unique) st) = Returned (None, Some e)
         /\ e <> ErrNoRows).
Proof.
  destruct (FindOrCreate_cases brt unique st)
    as [(u & _ & _ & ->)|[(e & _ & Hne & ->)|(_ & ->)]].
  - left. now exists u.
  - right. now exists e.
  - rewrite run_create. cbn [fst].
    destruct (fst (exec_upsert (Name brt) unique
                     (snd (exec_select (selector brt) st))))
      as [[id saved]|e] eqn:E; simpl.
    + left. now eexists.
    + right. exists e. split; [reflexivity|].
      destruct (exec_upsert_err _ _ _ _ E) as (_ & _ & msg & -> & _).
      discriminate.
Qed.

(** X6: [FindOrCreate] sends the locked read first and then at most one
    statement more, the insert-or-merge of the receiver's name with the
    requested flag; when it sends the read only, no row has changed. *)
Theorem FindOrCreate_statements (brt : BaseResourceType) (unique : bool)
    (st : Store) :
  (log (snd (run (FindOrCreate brt unique) st))
   = log st ++ [SelectForShare (selector brt)]
   /\ rows (snd (run (FindOrCreate brt unique) st)) = rows st)
  \/ log (snd (run (FindOrCreate brt unique) st))
     = log st ++ [SelectForShare (selector brt);
                  InsertOnConflict (Name brt) unique].
Proof.
  destruct (exec_select_frame (selector brt) st) as (R & _ & _ & Lg).
  destruct (FindOrCreate_cases brt unique st)
    as [(u & _ & _ & ->)|[(e & _ & _ & ->)|(_ & ->)]]; cbn [snd].
  - left. now split.
  - left. now split.
  - right. rewrite run_create. cbn [snd].
    rewrite exec_upsert_log, Lg, <- app_assoc. reflexivity.
Qed.


(** X8: [FindOrCreate] leaves the row of every name other than the
    receiver's as it was, also when its read was by id. *)
Theorem FindOrCreate_touches_only_its_name (brt : BaseResourceType)
    (unique : bool) (st : Store) (other : string) :
  other <> Name brt ->
  lookup (EqName other) (rows (snd (run (FindOrCreate brt unique) st)))
  = lookup (EqName other) (rows st).
Proof.
  intros Hne.
  pose proof (exec_select_rows (selector brt) st) as R.
  destruct (FindOrCreate_cases brt unique st)
    as [(u & _ & _ & ->)|[(e & _ & _ & ->)|(_ & ->)]]; cbn [snd].
  - now rewrite R.
  - now rewrite R.
  - rewrite run_create. cbn [snd].
    rewrite (exec_upsert_other _ _ _ _ Hne). now rewrite R.
Qed.

(** X10: [FindOrCreate] keeps the catalog's constraints (distinct
    positive ids below the sequence, distinct names), never changes the id
    stored for any name, never removes a row and adds at most one, and adds
    none when the receiver's name already has a row. *)
Theorem FindOrCreate_keeps_constraints (brt : BaseResourceType)
    (unique : bool) (st : Store) :
  (wf_store st -> wf_store (snd (run (FindOrCreate brt unique) st)))
  /\ (forall name id,
         stored_id name st = Some id ->
         stored_id name (snd (run (FindOrCreate brt unique) st)) = Some id)
  /\ (List.length (rows st)
      <= List.length (rows (snd (run (FindOrCreate brt unique) st)))
      <= S (List.length (rows st)))%nat
  /\ (lookup (EqName (Name brt)) (rows st) <> None ->
      List.length (rows (snd (run (FindOrCreate brt unique) st)))
      = List.length (rows st)).
Proof.
  split; [|split].
  - apply run_preserves; [apply exec_select_wf|apply exec_upsert_wf].
  - intros name id.
    apply (run_preserves (fun s => stored_id name s = Some id)).
    + intros w s. unfold stored_id. now rewrite exec_select_rows.
    + intros n u s. apply exec_upsert_id_stays.
  - pose proof (exec_select_rows (selector brt) st) as R.
    destruct (FindOrCreate_cases brt unique st)
      as [(u & _ & _ & ->)|[(e & _ & _ & ->)|(_ & ->)]]; cbn [snd].
    + rewrite R. split; [lia|reflexivity].
    + rewrite R. split; [lia|reflexivity].
    + rewrite run_create. cbn [snd].
      destruct (exec_upsert_length (Name brt) unique
                  (snd (exec_select (selector brt) st))) as [H1 H2].
      rewrite R in H1, H2. split; assumption.
Qed.

(** A record out of the scan of a read is the row the read matched. *)
Lemma exec_select_found (w : where_clause) (st : Store)
    (u : UsedBaseResourceType) (found : bool) (err : option error) :
  Find_scan (fst (exec_select w st)) = (Some u, found, err) ->
  exists r,
    lookup w (rows st) = Some r /\ next_fault st = None
    /\ ID u = row_id r /\ UsedName u = row_name r
    /\ UniqueVersionHistory u = row_unique r
    /\ decodes (row_defaults r) (Defaults u).
Proof.
  destruct (fst (exec_select w st)) as [[[[id nm] uq] ds]|e] eqn:E.
  - destruct (exec_select_ok _ _ _ _ _ _ E) as (r & L & F & <- & <- & <- & <-).
    intros H. destruct (Find_scan_found _ _ _ _ _ _ _ H) as (_ & _ & D & Hr).
    exists r. tauto.
  - simpl. destruct e; discriminate.
Qed.

Lemma exec_select_absent (w : where_clause) (st : Store) :
  Find_scan (fst (exec_select w st)) = (None, false, None) ->
  lookup w (rows st) = None /\ next_fault st = None.
Proof.
  destruct (fst (exec_select w st)) as [[[[id nm] uq] ds]|e] eqn:E; simpl.
  - destruct (Valid ds); [destruct (json_unmarshal (NString ds))|];
      discriminate.
  - destruct e; try discriminate. intros _. now apply exec_select_no_rows.
Qed.

(** What a [create] that returns a record has written. *)
Lemma create_outcome (brt : BaseResourceType) (unique : bool)
    (st st' : Store) (u : UsedBaseResourceType) :
  run (create brt unique) st = (Returned (Some u, None), st') ->
  UsedName u = Name brt /\ Defaults u = nilSource
  /\ lookup (EqName (Name brt)) (rows st')
     = Some {| row_id := ID u; row_name := Name brt;
               row_unique := UniqueVersionHistory u;
               row_defaults :=
                 match lookup (EqName (Name brt)) (rows st) with
                 | Some r => row_defaults r
                 | None => None
                 end |}
  /\ match lookup (EqName (Name brt)) (rows st) with
     | Some r =>
         ID u = row_id r
         /\ UniqueVersionHistory u = unique || row_unique r
     | None => ID u = next_id st /\ UniqueVersionHistory u = unique
     end.
Proof.
  rewrite run_create. intros [= H <-].
  destruct (fst (exec_upsert (Name brt) unique st)) as [[id saved]|e] eqn:E;
    simpl in H; [|discriminate].
  injection H as <-. simpl.
  destruct (next_fault st) as [msg|] eqn:F;
    [rewrite (proj1 (exec_upsert_fault _ _ _ _ F)) in E; discriminate|].
  destruct (exec_upsert_ok (Name brt) unique _ F) as [E' R]. rewrite E' in E.
  injection E as <- <-. rewrite R, upsert_rows_lookup.
  destruct (lookup (EqName (Name brt)) (rows st)) as [r|] eqn:L.
  - rewrite (upsert_rows_conflict _ _ _ _ _ L). simpl. tauto.
  - rewrite (upsert_rows_insert _ _ _ _ L). simpl. tauto.
Qed.

(** What a [FindOrCreate] by name that returns a record has returned and
    left under the name. *)
Lemma FindOrCreate_named_outcome (brt : BaseResourceType) (unique : bool)
    (st st' : Store) (u : UsedBaseResourceType) :
  Id brt <= 0 ->
  run (FindOrCreate brt unique) st = (Returned (Some u, None), st') ->
  UsedName u = Name brt
  /\ (exists r' d,
         lookup (EqName (Name brt)) (rows st') = Some r'
         /\ row_id r' = ID u /\ row_unique r' = UniqueVersionHistory u
         /\ decodes (row_defaults r') d)
  /\ match lookup (EqName (Name brt)) (rows st) with
     | Some r =>
         ID u = row_id r
         /\ UniqueVersionHistory u = unique || row_unique r
         /\ (row_unique r <> unique -> Defaults u = nilSource)
         /\ (row_unique r = unique -> decodes (row_defaults r) (Defaults u))
     | None =>
         ID u = next_id st /\ UniqueVersionHistory u = unique
         /\ Defaults u = nilSource
     end.
Proof.
  intros Hid.
  destruct (exec_select_frame (selector brt) st) as (R & N & _).
  destruct (FindOrCreate_cases brt unique st)
    as [(u0 & Hres & Hu & ->)|[(e & _ & _ & ->)|(Hres & ->)]];
    rewrite (selector_named brt Hid) in *.
  - intros [= <- <-].
    destruct (exec_select_found _ _ _ _ _ Hres)
      as (r & L & _ & Hi & Hn & Hq & D).
    rewrite R, L. split; [rewrite Hn; now apply lookup_name_row in L|].
    split; [exists r, (Defaults u0); now repeat split|].
    repeat split; try assumption.
    + rewrite Hq in Hu. rewrite <- Hu, Hq. now destruct (row_unique r).
    + intros Hne. congruence.
    + intros _. exact D.
  - discriminate.
  - intros H. destruct (create_outcome _ _ _ _ _ H) as (Hn & Hd & L' & Hpre).
    rewrite R, N in *. split; [exact Hn|].
    destruct Hres as [Hres|(u0 & Hres & Hu)].
    + destruct (exec_select_absent _ _ Hres) as [L _]. rewrite L in *.
      split; [|tauto].
      eexists _, nilSource. split; [exact L'|]. now repeat split.
    + destruct (exec_select_found _ _ _ _ _ Hres)
        as (r & L & _ & _ & _ & Hq & D).
      rewrite L in *. split.
      * eexists _, (Defaults u0). split; [exact L'|]. now repeat split.
      * destruct Hpre as [Hi Hq'].
        repeat split; try assumption;
          [intros _; exact Hd | intros Heq; congruence].
Qed.

(** X9: a [FindOrCreate] by name that returns a record returns the
    receiver's name and the id and flag stored under it afterwards.  When
    the name had a row, the id is that row's and the flag is the requested
    flag or the stored one; the defaults are the row's decoded ones when the
    stored flag was the requested one and the zero value otherwise.  When
    the name had no row, the id is the next of the sequence, the flag is the
    requested one and the defaults are the zero value. *)
Theorem FindOrCreate_returns_the_or (brt : BaseResourceType) (unique : bool)
    (st st' : Store) (u : UsedBaseResourceType) :
  Id brt <= 0 ->
  run (FindOrCreate brt unique) st = (Returned (Some u, None), st') ->
  UsedName u = Name brt
  /\ stored_id (Name brt) st' = Some (ID u)
  /\ stored_flag (Name brt) st' = Some (UniqueVersionHistory u)
  /\ match lookup (EqName (Name brt)) (rows st) with
     | Some r =>
         ID u = row_id r
         /\ UniqueVersionHistory u = unique || row_unique r
         /\ (row_unique r <> unique -> Defaults u = nilSource)
         /\ (row_unique r = unique -> decodes (row_defaults r) (Defaults u))
     | None =>
         ID u = next_id st /\ UniqueVersionHistory u = unique
         /\ Defaults u = nilSource
     end.
Proof.
  intros Hid H.
  destruct (FindOrCreate_named_outcome _ _ _ _ _ Hid H)
    as (Hn & (r' & d & L' & Hi & Hq & _) & Hpre).
  unfold stored_id, stored_flag. rewrite L'. simpl. rewrite Hi, Hq.
  now repeat split.
Qed.

(** X11: after a [FindOrCreate] by name has returned a record, [Find]
    for the same receiver, on a storage that does not fail the read, finds
    a record with the same id, name and flag. *)
Theorem Find_after_FindOrCreate (brt : BaseResourceType) (unique : bool)
    (st st' : Store) (u : UsedBaseResourceType) :
  Id brt <= 0 ->
  run (FindOrCreate brt unique) st = (Returned (Some u, None), st') ->
  next_fault st' = None ->
  exists d,
    fst (run (Find brt) st')
    = Returned (Some {| ID := ID u; UsedName := Name brt;
                        UniqueVersionHistory := UniqueVersionHistory u;
                        Defaults := d |}, true, None).
Proof.
  intros Hid H F.
  destruct (FindOrCreate_named_outcome _ _ _ _ _ Hid H)
    as (_ & (r' & d & L' & Hi & Hq & D) & _).
  exists d. rewrite <- Hi, <- Hq, <- (lookup_name_row _ _ _ L').
  apply run_Find_row; [exact F| |exact D].
  now rewrite (selector_named brt Hid).
Qed.

Lemma lookup_id_unique (rs : list Row) (r : Row) :
  NoDup (map row_id rs) -> In r rs -> lookup (EqId (row_id r)) rs = Some r.
Proof.
  unfold lookup. induction rs as [|r0 rs IH]; simpl; [tauto|].
  intros Hnd Hin. inversion Hnd as [|x l Hx Hnd']; subst.
  destruct (Z.eqb (row_id r0) (row_id r)) eqn:E.
  - destruct Hin as [->|Hin]; [reflexivity|].
    apply Z.eqb_eq in E. exfalso. apply Hx. rewrite E. now apply in_map.
  - destruct Hin as [->|Hin]; [now rewrite Z.eqb_refl in E|]. now apply IH.
Qed.

(** X13: on a catalog that satisfies its constraints, the id that a
    [FindOrCreate] by name returns pins the row: a [Find] by that id,
    whatever name the receiver carries, on a storage that does not fail the
    read, finds the record of the registered name with the returned flag. *)
Theorem Find_by_returned_id (brt : BaseResourceType) (unique : bool)
    (st st' : Store) (u : UsedBaseResourceType) (name' : string) :
  wf_store st ->
  Id brt <= 0 ->
  run (FindOrCreate brt unique) st = (Returned (Some u, None), st') ->
  next_fault st' = None ->
  0 < ID u
  /\ exists d,
       fst (run (Find {| Id := ID u; Name := name' |}) st')
       = Returned (Some {| ID := ID u; UsedName := Name brt;
                           UniqueVersionHistory := UniqueVersionHistory u;
                           Defaults := d |}, true, None).
Proof.
  intros Hwf Hid H F.
  assert (Hwf' : wf_store st').
  { replace st' with (snd (run (FindOrCreate brt unique) st))
      by now rewrite H.
    apply run_preserves; [apply exec_select_wf|apply exec_upsert_wf|exact Hwf]. }
  destruct (FindOrCreate_named_outcome _ _ _ _ _ Hid H)
    as (_ & (r' & d & L' & Hi & Hq & D) & _).
  assert (Hin : In r' (rows st'))
    by (unfold lookup in L'; now apply find_some in L').
  destruct Hwf' as (Hnd & _ & Hb & _).
  assert (Hpos : 0 < ID u).
  { rewrite Forall_forall in Hb. rewrite <- Hi.
    apply (Hb (row_id r')). now apply in_map. }
  split; [exact Hpos|]. exists d.
  rewrite <- Hi, <- Hq, <- (lookup_name_row _ _ _ L').
  apply run_Find_row; [exact F| |exact D].
  rewrite selector_id; simpl; [|now rewrite Hi].
  now apply lookup_id_unique.
Qed.

(** ** Schedules, further *)

(** X12: whatever programs over the two statements run on one store, in
    whatever order their statements are executed: a flag stored as true
    stays true, the id stored for a name stays, and the catalog keeps its
    constraints. *)
Theorem schedule_keeps_flags_and_ids {A : Type} (sched : list nat)
    (ps : list (prog A)) (st : Store) (name : string) :
  (stored_flag name st = Some true ->
   stored_flag name (snd (run_sched sched ps st)) = Some true)
  /\ (forall id,
         stored_id name st = Some id ->
         stored_id name (snd (run_sched sched ps st)) = Some id)
  /\ (wf_store st -> wf_store (snd (run_sched sched ps st))).
Proof.
  split; [|split].
  - apply (run_sched_preserves (fun s => stored_flag name s = Some true)).
    + intros w s. unfold stored_flag. now rewrite exec_select_rows.
    + intros n u s. apply exec_upsert_flag_stays.
  - intros id.
    apply (run_sched_preserves (fun s => stored_id name s = Some id)).
    + intros w s. unfold stored_id. now rewrite exec_select_rows.
    + intros n u s. apply exec_upsert_id_stays.
  - apply run_sched_preserves; [apply exec_select_wf|apply exec_upsert_wf].
Qed.

(** ** Errors and success, further *)

(** An error out of the scan of a read is the storage's or the decoder's. *)
Lemma exec_select_error (w : where_clause) (st : Store)
    (ubrt : option UsedBaseResourceType) (found : bool) (e : error) :
  Find_scan (fst (exec_select w st)) = (ubrt, found, Some e) ->
  (exists msg, next_fault st = Some msg /\ e = ErrDriver msg)
  \/ (exists r s msg,
         next_fault st = None /\ lookup w (rows st) = Some r
         /\ row_defaults r = Some s /\ json_unmarshal s = Err msg
         /\ e = ErrUnmarshal msg).
Proof.
  unfold exec_select. destruct (next_fault st) as [msg|] eqn:F; simpl.
  - intros [= _ _ <-]. left. now exists msg.
  - destruct (lookup w (rows st)) as [r|] eqn:L; simpl; [|discriminate].
    destruct (row_defaults r) as [s|] eqn:D; simpl; [|discriminate].
    destruct (json_unmarshal s) as [d|msg] eqn:J; [discriminate|].
    intros [= _ _ <-]. right. exists r, s, msg. tauto.
Qed.

(** X14: every error of [FindOrCreate] is the error of the storage for
    the read or for the write, as the storage gave it, or the error of the
    decoder for the defaults of the row the read matched. *)
Theorem FindOrCreate_error_origin (brt : BaseResourceType) (unique : bool)
    (st st' : Store) (ubrt : option UsedBaseResourceType) (e : error) :
  run (FindOrCreate brt unique) st = (Returned (ubrt, Some e), st') ->
  (exists msg,
      e = ErrDriver msg
      /\ (next_fault st = Some msg
          \/ (next_fault st = None
              /\ next_fault (snd (run (Find brt) st)) = Some msg)))
  \/ (exists r s msg,
         e = ErrUnmarshal msg /\ next_fault st = None
         /\ lookup (selector brt) (rows st) = Some r
         /\ row_defaults r = Some s /\ json_unmarshal s = Err msg).
Proof.
  rewrite run_Find. cbn [snd].
  destruct (FindOrCreate_cases brt unique st)
    as [(u & _ & _ & ->)|[(e' & Hres & _ & ->)|(Hres & ->)]].
  - discriminate.
  - intros [= _ <- _].
    destruct (exec_select_error _ _ _ _ _ Hres)
      as [(msg & F & ->)|(r & s & msg & F & L & D & J & ->)].
    + left. exists msg. tauto.
    + right. exists r, s, msg. tauto.
  - rewrite run_create. intros [= H _].
    destruct (fst (exec_upsert (Name brt) unique
                     (snd (exec_select (selector brt) st))))
      as [[id saved]|e'] eqn:E; simpl in H; [discriminate|].
    injection H as _ <-.
    destruct (exec_upsert_err _ _ _ _ E) as (_ & _ & msg & -> & F1).
    left. exists msg. split; [reflexivity|]. right. split; [|exact F1].
    destruct Hres as [Hres|(u & Hres & _)].
    + now apply exec_select_absent in Hres.
    + destruct (exec_select_found _ _ _ _ _ Hres) as (r & _ & F & _).
      exact F.
Qed.

(** X15: on a storage that fails neither statement, [FindOrCreate]
    returns a record whenever the row its read matches, if any, has
    defaults that are NULL or decode. *)
Theorem FindOrCreate_succeeds (brt : BaseResourceType) (unique : bool)
    (st : Store) :
  faults st = [] ->
  (forall r, lookup (selector brt) (rows st) = Some r ->
             exists d, decodes (row_defaults r) d) ->
  exists u,
    fst (run (FindOrCreate brt unique) st) = Returned (Some u, None).
Proof.
  intros F Hdec.
  assert (F0 : next_fault st = None) by (unfold next_fault; now rewrite F).
  assert (F1 : next_fault (snd (exec_select (selector brt) st)) = None).
  { unfold next_fault.
    destruct (exec_select_frame (selector brt) st) as (_ & _ & -> & _).
    now rewrite F. }
  destruct (FindOrCreate_cases brt unique st)
    as [(u & _ & _ & ->)|[(e & Hres & _ & ->)|(_ & ->)]].
  - now exists u.
  - exfalso.
    destruct (exec_select_error _ _ _ _ _ Hres)
      as [(msg & F' & _)|(r & s & msg & _ & L & D & J & _)];
      [congruence|].
    destruct (Hdec r L) as (d & Hd). unfold decodes in Hd.
    rewrite D in Hd. congruence.
  - rewrite run_create. cbn [fst].
    rewrite (proj1 (exec_upsert_ok (Name brt) unique _ F1)). simpl.
    now eexists.
Qed.

(** X16: [create] writes whatever is stored, and writing twice is writing
    once: on a storage that fails neither write, a second [create] with the
    same flag returns the same record and leaves every row as the first
    left it. *)
Theorem create_idempotent (brt : BaseResourceType) (unique : bool)
    (st : Store) :
  next_fault st = None ->
  next_fault (snd (run (create brt unique) st)) = None ->
  fst (run (create brt unique) (snd (run (create brt unique) st)))
  = fst (run (create brt unique) st)
  /\ rows (snd (run (create brt unique) (snd (run (create brt unique) st))))
     = rows (snd (run (create brt unique) st))
  /\ exists u, fst (run (create brt unique) st) = Returned (Some u, None).
Proof.
  rewrite !run_create. cbn [fst snd]. intros F F1.
  destruct (exec_upsert_ok (Name brt) unique st F) as [E R].
  destruct (exec_upsert_ok (Name brt) unique _ F1) as [E1 R1].
  set (st1 := snd (exec_upsert (Name brt) unique st)) in *.
  set (r1 := snd (upsert_rows (Name brt) unique (next_id st) (rows st))) in *.
  assert (L1 : lookup (EqName (Name brt)) (rows st1) = Some r1)
    by (rewrite R; apply upsert_rows_lookup).
  assert (Hor : unique || row_unique r1 = row_unique r1).
  { subst r1. destruct (lookup (EqName (Name brt)) (rows st)) as [r|] eqn:L.
    - rewrite (upsert_rows_conflict _ _ _ _ _ L). simpl.
      now destruct unique, (row_unique r).
    - rewrite (upsert_rows_insert _ _ _ _ L). simpl. now destruct unique. }
  rewrite E1, E, R1.
  rewrite (upsert_rows_conflict _ _ _ _ _ L1). simpl. rewrite Hor.
  split; [reflexivity|]. split; [|now eexists].
  now apply upsert_rows_same with (r := r1).
Qed.

Lemma lookup_id_inj (rs : list Row) (r1 r2 : Row) :
  NoDup (map row_id rs) -> In r1 rs -> In r2 rs ->
  row_id r1 = row_id r2 -> r1 = r2.
Proof.
  intros Hnd H1 H2 E.
  pose proof (lookup_id_unique rs r1 Hnd H1) as L1.
  pose proof (lookup_id_unique rs r2 Hnd H2) as L2.
  rewrite E in L1. congruence.
Qed.

(** X17: a receiver whose id is set is read by id and written by name.
    On a catalog that satisfies its constraints and a storage that fails
    neither statement, when the row of the receiver's id carries another
    name and another flag than requested, [FindOrCreate] registers the
    receiver's name and returns its record, whose id is not the receiver's;
    the row of the receiver's id stays as it was. *)
Theorem FindOrCreate_reads_by_id_writes_by_name (brt : BaseResourceType)
    (unique : bool) (st : Store) (r : Row) (d : Source) :
  wf_store st ->
  faults st = [] ->
  0 < Id brt ->
  lookup (EqId (Id brt)) (rows st) = Some r ->
  row_name r <> Name brt ->
  row_unique r <> unique ->
  decodes (row_defaults r) d ->
  exists u,
    fst (run (FindOrCreate brt unique) st) = Returned (Some u, None)
    /\ UsedName u = Name brt
    /\ ID u <> Id brt
    /\ stored_id (Name brt) (snd (run (FindOrCreate brt unique) st))
       = Some (ID u)
    /\ lookup (EqName (row_name r))
         (rows (snd (run (FindOrCreate brt unique) st)))
       = lookup (EqName (row_name r)) (rows st).
Proof.
  intros Hwf F Hid L Hname Hflag D.
  assert (F0 : next_fault st = None) by (unfold next_fault; now rewrite F).
  destruct (exec_select_frame (selector brt) st) as (R & N & Ft & _).
  assert (F1 : next_fault (snd (exec_select (selector brt) st)) = None)
    by (unfold next_fault; now rewrite Ft, F).
  assert (Hres : Find_scan (fst (exec_select (selector brt) st))
                 = (Some {| ID := row_id r; UsedName := row_name r;
                            UniqueVersionHistory := row_unique r;
                            Defaults := d |}, true, None)).
  { unfold exec_select. rewrite F0, (selector_id brt Hid), L. cbn [fst].
    now apply Find_scan_row. }
  assert (Hrun : run (FindOrCreate brt unique) st
                 = run (create brt unique)
                     (snd (exec_select (selector brt) st))).
  { rewrite run_FindOrCreate, Hres.
    now rewrite FindOrCreate_found_other. }
  rewrite Hrun, run_create. cbn [fst snd].
  destruct (fst (exec_upsert (Name brt) unique
                   (snd (exec_select (selector brt) st))))
    as [[id saved]|e] eqn:E;
    [|rewrite (proj1 (exec_upsert_ok (Name brt) unique _ F1)) in E;
      discriminate].
  assert (Hc : run (create brt unique) (snd (exec_select (selector brt) st))
               = (Returned
                    (Some {| ID := id; UsedName := Name brt;
                             UniqueVersionHistory := saved;
                             Defaults := nilSource |}, None),
                  snd (exec_upsert (Name brt) unique
                         (snd (exec_select (selector brt) st)))))
    by (rewrite run_create, E; reflexivity).
  destruct (create_outcome _ _ _ _ _ Hc) as (_ & _ & L' & Hpre).
  simpl in L', Hpre. rewrite R, N in Hpre.
  eexists. split; [reflexivity|]. simpl.
  split; [reflexivity|]. split; [|split].
  - destruct Hwf as (Hnd & _ & Hb & _).
    assert (Hin : In r (rows st))
      by (unfold lookup in L; now apply find_some in L).
    pose proof (lookup_id_row _ _ _ L) as Hrid.
    destruct (lookup (EqName (Name brt)) (rows st)) as [r2|] eqn:L2.
    + destruct Hpre as [-> _]. intros Heq.
      assert (Hin2 : In r2 (rows st))
        by (unfold lookup in L2; now apply find_some in L2).
      assert (r2 = r)
        by (apply (lookup_id_inj (rows st)); auto; congruence).
      subst r2. apply Hname. now apply lookup_name_row in L2.
    + destruct Hpre as [-> _]. rewrite Forall_forall in Hb.
      specialize (Hb (row_id r) (in_map row_id _ _ Hin)). lia.
  - unfold stored_id. now rewrite L'.
  - rewrite (exec_upsert_other _ _ _ _ Hname). now rewrite R.
Qed.

End Properties.

(** ** The properties on sample catalogs *)

#[local] Existing Instance sample_codec.

Lemma Find_absent_is_not_an_error_witness :
  (next_fault empty_store = None
   /\ lookup (selector (named "unknown")) (rows empty_store) = None
   /\ fst (run (Find (named "unknown")) empty_store)
      = Returned (None, false, None))
  /\ (next_fault (failing "connection reset" sample_store)
      = Some "connection reset"
      /\ fst (run (Find (named "git")) (failing "connection reset" sample_store))
         = Returned (None, false, Some (ErrDriver "connection reset"))).
Proof.
  split.
  - split; [reflexivity|]. split; [reflexivity|].
    apply (proj1 (Find_absent_is_not_an_error (named "unknown") empty_store));
      reflexivity.
  - split; [reflexivity|].
    apply (proj2 (Find_absent_is_not_an_error (named "git")
                    (failing "connection reset" sample_store))
             "connection reset").
    reflexivity.
Defined.

Lemma Find_undecodable_defaults_witness :
  json_unmarshal "{]" = Err "invalid character"
  /\ fst (run (Find (named "git")) broken_store)
     = Returned (None, false, Some (ErrUnmarshal "invalid character")).
Proof.
  split; [reflexivity|].
  apply (Find_undecodable_defaults (named "git") broken_store
           {| row_id := 1; row_name := "git"; row_unique := false;
              row_defaults := Some "{]" |} "{]" "invalid character");
    reflexivity.
Defined.

Lemma Find_id_dominates_witness :
  0 < 2
  /\ run (Find {| Id := 2; Name := "git" |}) sample_store
     = run (Find {| Id := 2; Name := "hg" |}) sample_store.
Proof.
  split; [reflexivity|].
  apply (Find_id_dominates 2 "git" "hg" sample_store). reflexivity.
Defined.

Lemma FindOrCreate_fast_path_witness :
  run (FindOrCreate (named "hg") true) sample_store
  = (Returned (Some {| ID := 2; UsedName := "hg";
                       UniqueVersionHistory := true; Defaults := nilSource |}, None),
     snd (run (Find (named "hg")) sample_store))
  /\ rows (snd (run (Find (named "hg")) sample_store)) = rows sample_store.
Proof.
  assert (HF : run (Find (named "hg")) sample_store
               = (Returned (Some {| ID := 2; UsedName := "hg";
                                    UniqueVersionHistory := true;
                                    Defaults := nilSource |}, true, None),
                  snd (run (Find (named "hg")) sample_store)))
    by reflexivity.
  destruct (FindOrCreate_fast_path (named "hg") true sample_store _ _
              HF eq_refl) as (H & R & _).
  split; [exact H|exact R].
Defined.

Lemma FindOrCreate_read_error_witness :
  (run (FindOrCreate (named "git") true) broken_store
   = (Returned (None, Some (ErrUnmarshal "invalid character")),
      snd (run (Find (named "git")) broken_store))
   /\ rows (snd (run (Find (named "git")) broken_store)) = rows broken_store)
  /\ (let st := failing "connection reset" sample_store in
      run (FindOrCreate (named "git") true) st
      = (Returned (None, Some (ErrDriver "connection reset")),
         snd (run (Find (named "git")) st))
      /\ log (snd (run (Find (named "git")) st))
         = [SelectForShare (EqName "git")]).
Proof.
  split.
  - assert (HF : run (Find (named "git")) broken_store
                 = (Returned (None, false,
                              Some (ErrUnmarshal "invalid character")),
                    snd (run (Find (named "git")) broken_store)))
      by reflexivity.
    destruct (FindOrCreate_read_error (named "git") true broken_store _ _ _ _
                HF) as (H & R & _).
    split; [exact H|exact R].
  - intros st.
    assert (HF : run (Find (named "git")) st
                 = (Returned (None, false,
                              Some (ErrDriver "connection reset")),
                    snd (run (Find (named "git")) st)))
      by reflexivity.
    destruct (FindOrCreate_read_error (named "git") true st _ _ _ _ HF)
      as (H & _ & _ & Hlog).
    split; [exact H|exact Hlog].
Defined.

Lemma FindOrCreate_monotonic_or_witness :
  Id (named "git") <= 0
  /\ stored_flag "git"
       (snd (run (FindOrCreate (named "git") false)
               (snd (run (FindOrCreate (named "git") true) empty_store))))
     = Some true
  /\ stored_flag "git"
       (snd (run (FindOrCreate (named "git") true)
               (snd (run (FindOrCreate (named "git") false) empty_store))))
     = Some true
  /\ stored_flag "hg" (snd (run (FindOrCreate (named "hg") false) sample_store))
     = Some true.
Proof.
  assert (H : Id (named "git") <= 0) by discriminate.
  assert (H' : Id (named "hg") <= 0) by discriminate.
  split; [exact H|].
  destruct (FindOrCreate_monotonic_or (named "git") empty_store H)
    as [Horder _].
  destruct (FindOrCreate_monotonic_or (named "hg") sample_store H')
    as [_ Hstay].
  split; [|split].
  - eapply (Horder true false); [discriminate|reflexivity|reflexivity].
  - eapply (Horder false true); [discriminate|reflexivity|reflexivity].
  - apply Hstay. reflexivity.
Defined.

Lemma FindOrCreate_idempotent_witness :
  let u := {| ID := 2; UsedName := "hg"; UniqueVersionHistory := true;
              Defaults := nilSource |} in
  let st1 := snd (run (FindOrCreate (named "hg") false) sample_store) in
  let st2 := snd (run (FindOrCreate (named "hg") false) st1) in
  Id (named "hg") <= 0
  /\ run (FindOrCreate (named "hg") false) sample_store
     = (Returned (Some u, None), st1)
  /\ run (FindOrCreate (named "hg") false) st1
     = (Returned (Some u, None), st2)
  /\ stored_flag "hg" st2 = stored_flag "hg" st1
  /\ rows st2 = rows st1.
Proof.
  intros u st1 st2.
  assert (Hid : Id (named "hg") <= 0) by discriminate.
  assert (H1 : run (FindOrCreate (named "hg") false) sample_store
               = (Returned (Some u, None), st1)) by reflexivity.
  assert (H2 : run (FindOrCreate (named "hg") false) st1
               = (Returned (Some u, None), st2)) by reflexivity.
  destruct (FindOrCreate_idempotent (named "hg") false sample_store st1 st2
              u u Hid H1 H2) as (_ & Hflag & Hrows).
  repeat split; assumption.
Defined.

Lemma create_merges_on_conflict_witness :
  next_fault sample_store = None
  /\ fst (run (create (named "git") true) sample_store)
     = Returned (Some {| ID := 1; UsedName := "git";
                         UniqueVersionHistory := true; Defaults := nilSource |}, None)
  /\ fst (run (create (named "hg") false) sample_store)
     = Returned (Some {| ID := 2; UsedName := "hg";
                         UniqueVersionHistory := true; Defaults := nilSource |}, None).
Proof.
  split; [reflexivity|]. split.
  - apply (create_merges_on_conflict (named "git") true sample_store
             {| row_id := 1; row_name := "git"; row_unique := false;
                row_defaults := None |}); reflexivity.
  - apply (create_merges_on_conflict (named "hg") false sample_store
             {| row_id := 2; row_name := "hg"; row_unique := true;
                row_defaults := Some "{}" |}); reflexivity.
Defined.

Lemma FindOrCreate_write_path_witness :
  (exists u st2 row,
      run (FindOrCreate (named "hg") false) broken_store
      = (Returned (Some u, None), st2)
      /\ lookup (EqName "hg") (rows st2) = Some row
      /\ ID u = row_id row
      /\ UsedName u = "hg" /\ row_name row = "hg"
      /\ UniqueVersionHistory u = row_unique row
      /\ Defaults u = nilSource
      /\ row_id row = 2
      /\ row_unique row = true
      /\ row_defaults row = Some "{}")
  /\ (exists u st2 row,
         run (FindOrCreate (named "bosh") true) sample_store
         = (Returned (Some u, None), st2)
         /\ lookup (EqName "bosh") (rows st2) = Some row
         /\ ID u = row_id row
         /\ UsedName u = "bosh" /\ row_name row = "bosh"
         /\ UniqueVersionHistory u = row_unique row
         /\ Defaults u = nilSource
         /\ row_id row = 3
         /\ row_unique row = true
         /\ row_defaults row = None
         /\ Find_scan (Ok (row_id row, row_name row, row_unique row,
                           scan_null (row_defaults row)))
            = (Some u, true, None)).
Proof.
  split.
  - assert (HF : run (Find (named "hg")) broken_store
                 = (Returned (Some {| ID := 2; UsedName := "hg";
                                      UniqueVersionHistory := true;
                                      Defaults := nilSource |}, true, None),
                    snd (run (Find (named "hg")) broken_store)))
      by reflexivity.
    apply (FindOrCreate_write_path (named "hg") false broken_store _ _ _ HF);
      [|reflexivity].
    right. eexists. split; [reflexivity|discriminate].
  - assert (HF : run (Find (named "bosh")) sample_store
                 = (Returned (None, false, None),
                    snd (run (Find (named "bosh")) sample_store)))
      by reflexivity.
    apply (FindOrCreate_write_path (named "bosh") true sample_store _ _ _ HF);
      [|reflexivity].
    left. reflexivity.
Defined.

Lemma concurrent_first_registration_witness :
  let flags := [false; true; false] in
  let sched := [0; 1; 2; 1; 0; 2]%nat in
  let u := {| ID := 3; UsedName := "bosh"; UniqueVersionHistory := true;
              Defaults := nilSource |} in
  let st' := snd (run_sched sched (callers "bosh" flags) sample_store) in
  flags <> []
  /\ lookup (EqName "bosh") (rows sample_store) = None
  /\ run_sched sched (callers "bosh" flags) sample_store
     = (resolved [u; u; u], st')
  /\ (exists r,
         lookup (EqName "bosh") (rows st') = Some r
         /\ count_name "bosh" (rows st') = 1%nat
         /\ List.length [u; u; u] = List.length flags
         /\ Forall (fun v => ID v = row_id r) [u; u; u]
         /\ row_unique r = any_flag flags)
  /\ faults sample_store = []
  /\ exists us,
       fst (run_sched sched (callers "bosh" flags) sample_store)
       = resolved us.
Proof.
  intros flags sched u st'.
  assert (Hne : flags <> []) by discriminate.
  assert (L : lookup (EqName "bosh") (rows sample_store) = None)
    by reflexivity.
  assert (Hrun : run_sched sched (callers "bosh" flags) sample_store
                 = (resolved [u; u; u], st')) by reflexivity.
  assert (Hfair : forall i, (i < List.length flags)%nat ->
                            (2 <= turns sched i)%nat).
  { intros [|[|[|i]]] Hi; [apply le_n|apply le_n|apply le_n|].
    simpl in Hi. lia. }
  destruct (concurrent_first_registration "bosh" flags sched sample_store
              Hne L) as [Hsafe Hlive].
  split; [exact Hne|]. split; [exact L|]. split; [exact Hrun|].
  split; [exact (Hsafe [u; u; u] st' Hrun)|].
  split; [reflexivity|]. exact (Hlive eq_refl Hfair).
Defined.

(** ** Scenarios *)

(** Registering [git] with false on an empty catalog creates its row, with
    the flag false and no defaults. *)
Example scenario_first_registration :
  run (FindOrCreate (named "git") false) empty_store
  = (Returned (Some {| ID := 1; UsedName := "git";
                       UniqueVersionHistory := false;
                       Defaults := nilSource |}, None),
     {| rows := [ {| row_id := 1; row_name := "git"; row_unique := false;
                     row_defaults := None |} ];
        next_id := 2; faults := [];
        log := [SelectForShare (EqName "git");
                InsertOnConflict "git" false] |}).
Proof. reflexivity. Qed.

(** Registering it then with true returns the same id and raises the
    flag. *)
Example scenario_promotion :
  let st1 := snd (run (FindOrCreate (named "git") false) empty_store) in
  fst (run (FindOrCreate (named "git") true) st1)
  = Returned (Some {| ID := 1; UsedName := "git";
                      UniqueVersionHistory := true;
                      Defaults := nilSource |}, None)
  /\ stored_flag "git" (snd (run (FindOrCreate (named "git") true) st1))
     = Some true.
Proof. split; reflexivity. Qed.

(** Registering it again with false returns the same id, and the flag
    stays true. *)
Example scenario_no_demotion :
  let st1 := snd (run (FindOrCreate (named "git") false) empty_store) in
  let st2 := snd (run (FindOrCreate (named "git") true) st1) in
  fst (run (FindOrCreate (named "git") false) st2)
  = Returned (Some {| ID := 1; UsedName := "git";
                      UniqueVersionHistory := true;
                      Defaults := nilSource |}, None)
  /\ stored_flag "git" (snd (run (FindOrCreate (named "git") false) st2))
     = Some true.
Proof. split; reflexivity. Qed.

(** Looking an unknown name up in an empty catalog gives the absent
    result and no error. *)
Example scenario_unknown :
  fst (run (Find (named "unknown")) empty_store)
  = Returned (None, false, None).
Proof. reflexivity. Qed.

(** A receiver whose id is set reads by id and writes by name.  With the
    id of the row of another name, a call with true can return that other
    row, and a call with false then registers the receiver's name with
    false: the properties of a call by name above are stated for receivers
    whose id is not set. *)
Remark receiver_with_the_id_of_another_row :
  let brt := {| Id := 2; Name := "bosh" |} in
  let st1 := snd (run (FindOrCreate brt true) sample_store) in
  let st2 := snd (run (FindOrCreate brt false) st1) in
  fst (run (FindOrCreate brt true) sample_store)
  = Returned (Some {| ID := 2; UsedName := "hg";
                      UniqueVersionHistory := true;
                      Defaults := nilSource |}, None)
  /\ fst (run (FindOrCreate brt false) st1)
     = Returned (Some {| ID := 3; UsedName := "bosh";
                         UniqueVersionHistory := false;
                         Defaults := nilSource |}, None)
  /\ stored_flag "bosh" st2 = Some false.
Proof. repeat split; reflexivity. Qed.

(** ** The further properties on sample catalogs *)

(** The sample catalog satisfies the constraints. *)
Lemma sample_store_wf : wf_store sample_store.
Proof.
  unfold wf_store. simpl. repeat split.
  - repeat constructor; simpl; intuition discriminate.
  - repeat constructor; simpl; intuition discriminate.
  - repeat constructor.
Defined.

Lemma Find_found_is_stored_witness :
  let u := {| ID := 2; UsedName := "hg"; UniqueVersionHistory := true;
              Defaults := nilSource |} in
  run (Find (named "hg")) sample_store
  = (Returned (Some u, true, None), snd (run (Find (named "hg")) sample_store))
  /\ exists r,
       lookup (selector (named "hg")) (rows sample_store) = Some r
       /\ In r (rows sample_store)
       /\ ID u = row_id r /\ UsedName u = row_name r
       /\ UniqueVersionHistory u = row_unique r
       /\ decodes (row_defaults r) (Defaults u)
       /\ (0 < Id (named "hg") -> ID u = Id (named "hg"))
       /\ (Id (named "hg") <= 0 -> UsedName u = Name (named "hg")).
Proof.
  intros u.
  assert (HF : run (Find (named "hg")) sample_store
               = (Returned (Some u, true, None),
                  snd (run (Find (named "hg")) sample_store)))
    by reflexivity.
  split; [exact HF|].
  exact (proj2 (proj2 (Find_found_is_stored _ _ _ _ _ _ HF))).
Defined.

Lemma Find_finds_matching_row_witness :
  let r := {| row_id := 1; row_name := "git"; row_unique := false;
              row_defaults := None |} in
  next_fault sample_store = None
  /\ lookup (selector {| Id := 1; Name := "" |}) (rows sample_store) = Some r
  /\ decodes (row_defaults r) nilSource
  /\ fst (run (Find {| Id := 1; Name := "" |}) sample_store)
     = Returned (Some {| ID := 1; UsedName := "git";
                         UniqueVersionHistory := false;
                         Defaults := nilSource |}, true, None).
Proof.
  intros r.
  assert (F : next_fault sample_store = None) by reflexivity.
  assert (L : lookup (selector {| Id := 1; Name := "" |}) (rows sample_store)
              = Some r) by reflexivity.
  assert (D : decodes (row_defaults r) nilSource) by reflexivity.
  split; [exact F|]. split; [exact L|]. split; [exact D|].
  exact (proj1 (Find_finds_matching_row {| Id := 1; Name := "" |}
                  sample_store r nilSource F L D)).
Defined.

Lemma Find_changes_nothing_witness :
  next_fault sample_store = None
  /\ next_fault (snd (run (Find (named "hg")) sample_store)) = None
  /\ fst (run (Find (named "hg")) (snd (run (Find (named "hg")) sample_store)))
     = fst (run (Find (named "hg")) sample_store).
Proof.
  split; [reflexivity|]. split; [reflexivity|].
  destruct (Find_changes_nothing (named "hg") sample_store)
    as (_ & _ & _ & H).
  apply H; reflexivity.
Defined.

Lemma Find_unset_id_reads_by_name_witness :
  -3 <= 0 /\ 0 <= 0
  /\ run (Find {| Id := -3; Name := "hg" |}) sample_store
     = run (Find {| Id := 0; Name := "hg" |}) sample_store.
Proof.
  assert (H : -3 <= 0) by discriminate.
  assert (H' : 0 <= 0) by discriminate.
  split; [exact H|]. split; [exact H'|].
  exact (proj2 (Find_unset_id_reads_by_name (-3) 0 "hg" sample_store H H')).
Defined.


Lemma FindOrCreate_touches_only_its_name_witness :
  "hg" <> Name (named "git")
  /\ lookup (EqName "hg")
       (rows (snd (run (FindOrCreate (named "git") true) sample_store)))
     = lookup (EqName "hg") (rows sample_store).
Proof.
  assert (H : "hg" <> Name (named "git")) by discriminate.
  split; [exact H|].
  exact (FindOrCreate_touches_only_its_name (named "git") true sample_store
           "hg" H).
Defined.

Lemma FindOrCreate_returns_the_or_witness :
  let u := {| ID := 2; UsedName := "hg"; UniqueVersionHistory := true;
              Defaults := nilSource |} in
  let st' := snd (run (FindOrCreate (named "hg") false) sample_store) in
  Id (named "hg") <= 0
  /\ run (FindOrCreate (named "hg") false) sample_store
     = (Returned (Some u, None), st')
  /\ stored_id "hg" st' = Some 2
  /\ stored_flag "hg" st' = Some true.
Proof.
  intros u st'.
  assert (Hid : Id (named "hg") <= 0) by discriminate.
  assert (H : run (FindOrCreate (named "hg") false) sample_store
              = (Returned (Some u, None), st')) by reflexivity.
  destruct (FindOrCreate_returns_the_or _ _ _ _ _ Hid H)
    as (_ & Hi & Hf & _).
  split; [exact Hid|]. split; [exact H|]. split; [exact Hi|exact Hf].
Defined.

Lemma FindOrCreate_keeps_constraints_witness :
  wf_store sample_store
  /\ wf_store (snd (run (FindOrCreate (named "bosh") true) sample_store))
  /\ stored_id "hg" sample_store = Some 2
  /\ stored_id "hg" (snd (run (FindOrCreate (named "bosh") true) sample_store))
     = Some 2
  /\ lookup (EqName (Name (named "hg"))) (rows sample_store) <> None
  /\ List.length (rows (snd (run (FindOrCreate (named "hg") false)
                               sample_store)))
     = List.length (rows sample_store).
Proof.
  destruct (FindOrCreate_keeps_constraints (named "bosh") true sample_store)
    as (Hwf & Hids & _).
  destruct (FindOrCreate_keeps_constraints (named "hg") false sample_store)
    as (_ & _ & _ & Hlen).
  assert (L : lookup (EqName (Name (named "hg"))) (rows sample_store) <> None)
    by discriminate.
  split; [exact sample_store_wf|]. split; [exact (Hwf sample_store_wf)|].
  split; [reflexivity|]. split; [exact (Hids "hg" 2 eq_refl)|].
  split; [exact L|exact (Hlen L)].
Defined.

Lemma Find_after_FindOrCreate_witness :
  let u := {| ID := 1; UsedName := "git"; UniqueVersionHistory := true;
              Defaults := nilSource |} in
  let st' := snd (run (FindOrCreate (named "git") true) sample_store) in
  Id (named "git") <= 0
  /\ run (FindOrCreate (named "git") true) sample_store
     = (Returned (Some u, None), st')
  /\ next_fault st' = None
  /\ exists d,
       fst (run (Find (named "git")) st')
       = Returned (Some {| ID := 1; UsedName := "git";
                           UniqueVersionHistory := true;
                           Defaults := d |}, true, None).
Proof.
  intros u st'.
  assert (Hid : Id (named "git") <= 0) by discriminate.
  assert (H : run (FindOrCreate (named "git") true) sample_store
              = (Returned (Some u, None), st')) by reflexivity.
  assert (F : next_fault st' = None) by reflexivity.
  split; [exact Hid|]. split; [exact H|]. split; [exact F|].
  exact (Find_after_FindOrCreate _ _ _ _ _ Hid H F).
Defined.

Lemma schedule_keeps_flags_and_ids_witness :
  let ps := [FindOrCreate (named "hg") false;
             FindOrCreate (named "git") true] in
  let st' := snd (run_sched [0; 1; 1; 0]%nat ps sample_store) in
  stored_flag "hg" sample_store = Some true
  /\ stored_flag "hg" st' = Some true
  /\ stored_id "git" sample_store = Some 1
  /\ stored_id "git" st' = Some 1
  /\ wf_store sample_store
  /\ wf_store st'.
Proof.
  intros ps st'.
  destruct (schedule_keeps_flags_and_ids [0; 1; 1; 0]%nat ps sample_store
              "hg") as (Hflag & _ & Hwf).
  destruct (schedule_keeps_flags_and_ids [0; 1; 1; 0]%nat ps sample_store
              "git") as (_ & Hid & _).
  split; [reflexivity|]. split; [exact (Hflag eq_refl)|].
  split; [reflexivity|]. split; [exact (Hid 1 eq_refl)|].
  split; [exact sample_store_wf|exact (Hwf sample_store_wf)].
Defined.

Lemma Find_by_returned_id_witness :
  let u := {| ID := 3; UsedName := "bosh"; UniqueVersionHistory := true;
              Defaults := nilSource |} in
  let st' := snd (run (FindOrCreate (named "bosh") true) sample_store) in
  wf_store sample_store
  /\ Id (named "bosh") <= 0
  /\ run (FindOrCreate (named "bosh") true) sample_store
     = (Returned (Some u, None), st')
  /\ next_fault st' = None
  /\ 0 < 3
  /\ exists d,
       fst (run (Find {| Id := 3; Name := "git" |}) st')
       = Returned (Some {| ID := 3; UsedName := "bosh";
                           UniqueVersionHistory := true;
                           Defaults := d |}, true, None).
Proof.
  intros u st'.
  assert (Hid : Id (named "bosh") <= 0) by discriminate.
  assert (H : run (FindOrCreate (named "bosh") true) sample_store
              = (Returned (Some u, None), st')) by reflexivity.
  assert (F : next_fault st' = None) by reflexivity.
  split; [exact sample_store_wf|]. split; [exact Hid|].
  split; [exact H|]. split; [exact F|].
  exact (Find_by_returned_id (named "bosh") true sample_store st' u "git"
           sample_store_wf Hid H F).
Defined.

Lemma FindOrCreate_error_origin_witness :
  let st := {| rows := rows sample_store; next_id := 3;
               faults := [None; Some "deadlock detected"]; log := [] |} in
  (run (FindOrCreate (named "git") true) st
   = (Returned (None, Some (ErrDriver "deadlock detected")),
      snd (run (FindOrCreate (named "git") true) st))
   /\ next_fault st = None
   /\ next_fault (snd (run (Find (named "git")) st))
      = Some "deadlock detected")
  /\ (run (FindOrCreate (named "git") true) broken_store
      = (Returned (None, Some (ErrUnmarshal "invalid character")),
         snd (run (FindOrCreate (named "git") true) broken_store))
      /\ ((exists msg,
              ErrUnmarshal "invalid character" = ErrDriver msg
              /\ (next_fault broken_store = Some msg
                  \/ (next_fault broken_store = None
                      /\ next_fault (snd (run (Find (named "git"))
                                            broken_store)) = Some msg)))
          \/ (exists r s msg,
                 ErrUnmarshal "invalid character" = ErrUnmarshal msg
                 /\ next_fault broken_store = None
                 /\ lookup (selector (named "git")) (rows broken_store)
                    = Some r
                 /\ row_defaults r = Some s /\ json_unmarshal s = Err msg))).
Proof.
  intros st. split.
  - split; [reflexivity|]. split; reflexivity.
  - assert (H : run (FindOrCreate (named "git") true) broken_store
                = (Returned (None, Some (ErrUnmarshal "invalid character")),
                   snd (run (FindOrCreate (named "git") true) broken_store)))
      by reflexivity.
    split; [exact H|].
    exact (FindOrCreate_error_origin _ _ _ _ _ _ H).
Defined.

Lemma FindOrCreate_succeeds_witness :
  faults sample_store = []
  /\ (forall r, lookup (selector (named "hg")) (rows sample_store) = Some r ->
                exists d, decodes (row_defaults r) d)
  /\ exists u,
       fst (run (FindOrCreate (named "hg") false) sample_store)
       = Returned (Some u, None).
Proof.
  assert (F : faults sample_store = []) by reflexivity.
  assert (D : forall r,
             lookup (selector (named "hg")) (rows sample_store) = Some r ->
             exists d, decodes (row_defaults r) d).
  { intros r L. injection L as <-. exists nilSource. reflexivity. }
  split; [exact F|]. split; [exact D|].
  exact (FindOrCreate_succeeds (named "hg") false sample_store F D).
Defined.

Lemma create_idempotent_witness :
  next_fault sample_store = None
  /\ next_fault (snd (run (create (named "git") true) sample_store)) = None
  /\ fst (run (create (named "git") true)
            (snd (run (create (named "git") true) sample_store)))
     = fst (run (create (named "git") true) sample_store)
  /\ rows (snd (run (create (named "git") true)
                  (snd (run (create (named "git") true) sample_store))))
     = rows (snd (run (create (named "git") true) sample_store)).
Proof.
  assert (F : next_fault sample_store = None) by reflexivity.
  assert (F1 : next_fault (snd (run (create (named "git") true) sample_store))
               = None) by reflexivity.
  destruct (create_idempotent (named "git") true sample_store F F1)
    as (H1 & H2 & _).
  split; [exact F|]. split; [exact F1|]. split; [exact H1|exact H2].
Defined.

Lemma FindOrCreate_reads_by_id_writes_by_name_witness :
  let brt := {| Id := 2; Name := "bosh" |} in
  let r := {| row_id := 2; row_name := "hg"; row_unique := true;
              row_defaults := Some "{}" |} in
  wf_store sample_store
  /\ faults sample_store = []
  /\ 0 < Id brt
  /\ lookup (EqId (Id brt)) (rows sample_store) = Some r
  /\ row_name r <> Name brt
  /\ row_unique r <> false
  /\ decodes (row_defaults r) nilSource
  /\ exists u,
       fst (run (FindOrCreate brt false) sample_store)
       = Returned (Some u, None)
       /\ UsedName u = Name brt
       /\ ID u <> Id brt
       /\ stored_id (Name brt) (snd (run (FindOrCreate brt false) sample_store))
          = Some (ID u)
       /\ lookup (EqName (row_name r))
            (rows (snd (run (FindOrCreate brt false) sample_store)))
          = lookup (EqName (row_name r)) (rows sample_store).
Proof.
  intros brt r.
  assert (F : faults sample_store = []) by reflexivity.
  assert (Hid : 0 < Id brt) by reflexivity.
  assert (L : lookup (EqId (Id brt)) (rows sample_store) = Some r)
    by reflexivity.
  assert (Hn : row_name r <> Name brt) by discriminate.
  assert (Hf : row_unique r <> false) by discriminate.
  assert (D : decodes (row_defaults r) nilSource) by reflexivity.
  split; [exact sample_store_wf|]. split; [exact F|]. split; [exact Hid|].
  split; [exact L|]. split; [exact Hn|]. split; [exact Hf|].
  split; [exact D|].
  exact (FindOrCreate_reads_by_id_writes_by_name brt false sample_store r
           nilSource sample_store_wf F Hid L Hn Hf D).
Defined.
